(** * retrieve_matches.py: match retrieval loop and row extraction

    A shallow embedding of [Data Generation/Refactored/retrieve_matches.py].

    - Python [int]s are unbounded: they are [Z].
    - Python [str]s are [string]; [==] on them is [String.eqb].
    - A csv row is the Python list handed to [csv_writer.writerow]; a file is
      the sequence of rows written to it, and the file system is a finite map
      from paths to files. The text that [csv] makes of a row is not
      modelled.
    - The effects of the program (sleeping, remote calls, printing, opening,
      writing and closing the file) are threaded through a small
      state-and-exception monad over a [World] that also records them, in
      order, in a trace.
    - The remote service is a function from identifiers to a match or an
      exception of the client; a match is the record of the attributes the
      program reads. Opening the output file for appending succeeds; a
      process killed from outside is not modelled.
    - The [while] loop may run for ever: it is run with fuel, and the world
      reached when the fuel runs out is kept. *)

From stdpp Require Import gmap strings list fin_maps.
From Stdlib Require Import ZArith Lia Ascii.

Local Open Scope string_scope.
Local Open Scope list_scope.
Local Open Scope Z_scope.

(** ** The values of the cassiopeia library that the program reads *)

Module cassiopeia.

(** [cassiopeia.data.GameMode] and [cassiopeia.data.Queue]: the program
    compares against [classic] and [ranked_solo_fives] only; the other
    members stand for the rest of the library's enumerations. *)
Inductive GameMode :=
  classic | aram | urf | one_for_all | tutorial | other_mode (tag : string).

Inductive Queue :=
  | ranked_solo_fives | ranked_flex_fives | normal_draft_fives
  | blind_fives | aram_fives | other_queue (tag : string).

Inductive Side := blue | red.

(** [side.name] of the [Side] enumeration. *)
Definition Side_name (s : Side) : string :=
  match s with blue => "blue" | red => "red" end.

Record Champion := { name : string }.

Record Participant := { champion : Champion }.

Record Team := {
  side : Side;
  win : bool;
  bans : list (option Champion);
  participants : list Participant;
  tower_kills : Z;
  inhibitor_kills : Z;
  dragon_kills : Z;
  rift_herald_kills : Z;
  baron_kills : Z;
  first_tower : bool;
  first_inhibitor : bool;
  first_dragon : bool;
  first_rift_herald : bool;
  first_baron : bool
}.

(** [exists_] is the attribute [match.exists]. *)
Record Match := {
  id : Z;
  version : string;
  exists_ : bool;
  mode : GameMode;
  queue : Queue;
  red_team : Team;
  blue_team : Team
}.

#[global] Instance GameMode_eq_dec : EqDecision GameMode.
Proof. solve_decision. Defined.

#[global] Instance Queue_eq_dec : EqDecision Queue.
Proof. solve_decision. Defined.

End cassiopeia.

Import cassiopeia.

(** ** Python values, rows, exceptions *)

Inductive pyval :=
  | PyInt (z : Z)
  | PyStr (s : string)
  | PyBool (b : bool).

#[global] Instance pyval_eq_dec : EqDecision pyval.
Proof. solve_decision. Defined.

Abbreviation row := (list pyval).

Inductive exn :=
  | ValueError (msg : string)
  | OSError (msg : string)
  | ServiceError (msg : string).

Inductive outcome (A : Type) :=
  | Ret (a : A)
  | Raise (e : exn).

Arguments Ret {A} a.
Arguments Raise {A} e.

(** ** Row extraction *)

(** Lines 25-36: the row of a resolved team. *)
Definition team_row (m : Match) (team : Team) : row :=
  let team_info := [PyInt (id m); PyStr (version m);
                    PyStr (Side_name (side team)); PyBool (win team)] in
  let bans := (fun ban => match ban with
                           | Some c => PyStr (name c)
                           | None => PyStr ""
                           end) <$> bans team in
  let players := (fun participant => PyStr (name (champion participant)))
                   <$> participants team in
  let team_stats := [PyInt (tower_kills team); PyInt (inhibitor_kills team);
                     PyInt (dragon_kills team); PyInt (rift_herald_kills team);
                     PyInt (baron_kills team); PyBool (first_tower team);
                     PyBool (first_inhibitor team); PyBool (first_dragon team);
                     PyBool (first_rift_herald team); PyBool (first_baron team)] in
  let team_info := team_info ++ bans in
  let team_info := team_info ++ players in
  let team_info := team_info ++ team_stats in
  team_info.

(** Lines 10-36. *)
Definition get_team_stats (team : string) (m : Match) : outcome row :=
  if String.eqb team "red" then Ret (team_row m (red_team m))
  else if String.eqb team "blue" then Ret (team_row m (blue_team m))
  else Raise (ValueError "Unknown team color given (must pick 'red' or 'blue').").

(** ** The world: file system and trace of effects *)

(** What the program prints (the f-strings, kept structured). *)
Inductive message :=
  | MsgNotExist (match_id : Z)
  | MsgNotCriteria (match_id : Z)
  | MsgAdded (match_id : Z) (saved : Z) (max_records : Z)
  | MsgCreating (filename : string)
  | MsgSuccess (max_records : Z) (filename : string).

Inductive event :=
  | EvSetRiotApiKey (key : string)
  | EvSetDefaultRegion (region : string)
  | EvSleep (seconds : Z)
  | EvGetMatch (match_id : Z)
  | EvPrint (msg : message)
  | EvOpen (path : string)
  | EvWriteRow (path : string) (r : row)
  | EvClose (path : string).

Record World := {
  files : gmap string (list row);
  trace : list event
}.

(** Rows of a file; a missing file has none. *)
Definition file_rows (fs : gmap string (list row)) (path : string) : list row :=
  default [] (fs !! path).

(** [os.path.exists]. *)
Definition os_path_exists (path : string) (w : World) : bool :=
  bool_decide (is_Some (files w !! path)).

(** ** The monad of effectful code *)

Definition M (A : Type) : Type := World -> outcome A * World.

Definition ret {A} (a : A) : M A := fun w => (Ret a, w).

Definition raise {A} (e : exn) : M A := fun w => (Raise e, w).

Definition bind {A B} (c : M A) (k : A -> M B) : M B :=
  fun w => match c w with
           | (Ret a, w') => k a w'
           | (Raise e, w') => (Raise e, w')
           end.

Definition lift {A} (o : outcome A) : M A := fun w => (o, w).

Declare Scope py_scope.
Delimit Scope py_scope with py.
Notation "x <- c ;; k" := (bind c (fun x => k))
  (at level 100, c at next level, right associativity) : py_scope.
Notation "c ;; k" := (bind c (fun _ => k))
  (at level 100, right associativity) : py_scope.

Definition emit (e : event) : M unit :=
  fun w => (Ret tt, {| files := files w; trace := trace w ++ [e] |}).

Definition print (msg : message) : M unit := emit (EvPrint msg).

(** [time.sleep]: a negative length is a [ValueError]. *)
Definition time_sleep (seconds : Z) : M unit :=
  if seconds <? 0 then raise (ValueError "sleep length must be non-negative")
  else emit (EvSleep seconds).

(** [open(filename, 'a+', ...)]: creates the file when it is missing. *)
Definition open_append (path : string) : M unit :=
  fun w => (Ret tt,
            {| files := match files w !! path with
                        | Some _ => files w
                        | None => <[path := []]> (files w)
                        end;
               trace := trace w ++ [EvOpen path] |}).

(** [csv_writer.writerow(r)] on a writer over the open file [path]. *)
Definition writerow (path : string) (r : row) : M unit :=
  fun w => (Ret tt,
            {| files := alter (fun rows => rows ++ [r]) path (files w);
               trace := trace w ++ [EvWriteRow path r] |}).

Definition close (path : string) : M unit := emit (EvClose path).

(** [with open(path, 'a+', ...) as file: body]: the file is closed on the way
    out, also when [body] raises. *)
Definition with_open {A} (path : string) (body : M A) : M A :=
  fun w => match open_append path w with
           | (Ret _, w1) =>
               let (r, w2) := body w1 in
               let (_, w3) := close path w2 in
               (r, w3)
           | (Raise e, w1) => (Raise e, w1)
           end.

(** The header of lines 77-81. *)
Definition header : row :=
  PyStr <$> ["id"; "version"; "side"; "win"; "ban1"; "ban2"; "ban3"; "ban4"; "ban5";
             "champion1"; "champion2"; "champion3"; "champion4"; "champion5";
             "tower_kills"; "inhibitor_kills"; "dragon_kills"; "rift_herald_kills";
             "baron_kills"; "first_tower"; "first_inhibitor"; "first_dragon";
             "first_rift_herald"; "first_baron"].

Section Program.

(** The remote service behind [cassiopeia.get_match]: a match (which may not
    exist) or an error of the client for each identifier. *)
Variable service : Z -> outcome Match.

(** Python's [int] on a string: [None] when it raises [ValueError]. *)
Variable int_of_str : string -> option Z.

Definition cassiopeia_get_match (match_id : Z) : M Match :=
  (emit (EvGetMatch match_id) ;; lift (service match_id))%py.

(** ** The retrieval loop *)

(** Lines 61-91: one iteration of the [while] loop; returns the new values of
    [read_records] and [current_id]. *)
Definition loop_body (filename : string) (max_records sleep_time : Z)
    (read_records current_id : Z) : M (Z * Z) :=
  (time_sleep sleep_time ;;
   m <- cassiopeia_get_match current_id ;;
   read_records <-
     (if negb (exists_ m) then
        print (MsgNotExist (id m)) ;; ret read_records
      else if negb (bool_decide (mode m = classic))
              || negb (bool_decide (queue m = ranked_solo_fives)) then
        print (MsgNotCriteria (id m)) ;; ret read_records
      else
        print (MsgAdded (id m) (read_records + 1) max_records) ;;
        with_open filename
          ((if read_records =? 0 then writerow filename header else ret tt) ;;
           bteam_info <- lift (get_team_stats "blue" m) ;;
           writerow filename bteam_info ;;
           rteam_info <- lift (get_team_stats "red" m) ;;
           writerow filename rteam_info) ;;
        ret (read_records + 1)) ;;
   ret (read_records, current_id - 1))%py.

(** Lines 59-91: [None] when the fuel runs out before the loop ends; the
    world reached so far is returned in every case. *)
Fixpoint while_loop (fuel : nat) (filename : string) (max_records sleep_time : Z)
    (read_records current_id : Z) (w : World)
    : option (outcome (Z * Z)) * World :=
  if read_records <? max_records then
    match fuel with
    | O => (None, w)
    | S fuel' =>
        match loop_body filename max_records sleep_time read_records current_id w with
        | (Ret (read_records', current_id'), w') =>
            while_loop fuel' filename max_records sleep_time read_records' current_id' w'
        | (Raise e, w') => (Some (Raise e), w')
        end
    end
  else (Some (Ret (read_records, current_id)), w).

(** Lines 39-91. *)
Definition get_match_records (fuel : nat) (filename : string)
    (start_id max_records sleep_time : Z) (w : World)
    : option (outcome unit) * World :=
  let '(_, w) := emit (EvSetRiotApiKey "RGAPI-KEY-GOES-HERE") w in
  let '(_, w) := emit (EvSetDefaultRegion "NA") w in
  let read_records := 0 in
  let current_id := start_id in
  match while_loop fuel filename max_records sleep_time read_records current_id w with
  | (Some (Ret _), w') => (Some (Ret tt), w')
  | (Some (Raise e), w') => (Some (Raise e), w')
  | (None, w') => (None, w')
  end.

(** Lines 94-126; [argv] is [sys.argv]. *)
Definition main (fuel : nat) (argv : list string) (w : World)
    : option (outcome unit) * World :=
  if negb (length argv =? 4)%nat then
    (Some (Raise (ValueError
       "Number of arguments given in the command line mismatch the required amount.")), w)
  else
    match argv with
    | [_; arg1; arg2; arg3] =>
        let filename := arg1 in
        match int_of_str arg2, int_of_str arg3 with
        | Some start_id, Some max_records =>
            let sleep_time := 3 in
            if os_path_exists filename w then
              (Some (Raise (OSError (filename +:+
                 " already exists. Terminating to prevent data from being overwritten."))), w)
            else
              let '(_, w) := print (MsgCreating filename) w in
              match get_match_records fuel filename start_id max_records sleep_time w with
              | (Some (Ret _), w') =>
                  let '(_, w') := print (MsgSuccess max_records filename) w' in
                  (Some (Ret tt), w')
              | r => r
              end
        | _, _ =>
            (Some (Raise (ValueError
               "Invalid starting match ID or max number of records.")), w)
        end
    | _ => (* not reached: [argv] has four elements here *)
        (Some (Raise (ValueError
           "Number of arguments given in the command line mismatch the required amount.")), w)
    end.

End Program.


(** * Vocabulary of the properties *)

(** ** The errors the program raises *)

Definition error_unknown_team : exn :=
  ValueError "Unknown team color given (must pick 'red' or 'blue').".

Definition error_negative_sleep : exn :=
  ValueError "sleep length must be non-negative".

Definition error_argument_count : exn :=
  ValueError "Number of arguments given in the command line mismatch the required amount.".

Definition error_invalid_number : exn :=
  ValueError "Invalid starting match ID or max number of records.".

Definition error_file_exists (filename : string) : exn :=
  OSError (filename +:+ " already exists. Terminating to prevent data from being overwritten.").

(** ** Rows *)

(** The team a selector resolves to. *)
Definition selects (team : string) (m : Match) (t : Team) : Prop :=
  (team = "red" ∧ t = red_team m) ∨ (team = "blue" ∧ t = blue_team m).

Definition ban_field (ban : option Champion) : pyval :=
  match ban with Some c => PyStr (name c) | None => PyStr "" end.

Definition champion_field (p : Participant) : pyval := PyStr (name (champion p)).

Definition statistics (t : Team) : row :=
  [PyInt (tower_kills t); PyInt (inhibitor_kills t); PyInt (dragon_kills t);
   PyInt (rift_herald_kills t); PyInt (baron_kills t); PyBool (first_tower t);
   PyBool (first_inhibitor t); PyBool (first_dragon t);
   PyBool (first_rift_herald t); PyBool (first_baron t)].

(** The two rows of an accepted match, blue first. *)
Definition match_rows (m : Match) : list row :=
  [team_row m (blue_team m); team_row m (red_team m)].

(** The header, when no record has been read yet. *)
Definition header_if_first (read_records : Z) : list row :=
  if read_records =? 0 then [header] else [].

(** ** Iterations *)

(** The acceptance filter in the words of the specification: the match
    exists, its mode is classic and its queue is ranked solo fives. *)
Definition accepted (m : Match) : Prop :=
  exists_ m = true ∧ mode m = classic ∧ queue m = ranked_solo_fives.

#[global] Instance accepted_dec (m : Match) : Decision (accepted m).
Proof. unfold accepted. apply _. Defined.

(** What a rejected match prints. *)
Definition rejection_message (m : Match) : message :=
  if exists_ m then MsgNotCriteria (id m) else MsgNotExist (id m).

(** The remote calls of a trace. *)
Definition fetches (tr : list event) : list Z :=
  omap (fun e => match e with EvGetMatch i => Some i | _ => None end) tr.

(** The events of a trace that touch a file. *)
Definition is_file_event (e : event) : bool :=
  match e with EvOpen _ | EvWriteRow _ _ | EvClose _ => true | _ => false end.

Definition is_header_write (e : event) : bool :=
  match e with
  | EvWriteRow _ r => bool_decide (r = header)
  | _ => false
  end.

(** How many times a trace writes the header to some file. *)
Definition header_writes (tr : list event) : nat :=
  length (List.filter is_header_write tr).

(** The events added to the trace between two worlds. *)
Definition new_events (w w' : World) : list event :=
  drop (length (trace w)) (trace w').

(** ** Runs *)

Definition startup_events : list event :=
  [EvSetRiotApiKey "RGAPI-KEY-GOES-HERE"; EvSetDefaultRegion "NA"].

(** The identifiers of [n] successive attempts, from [start_id] downwards. *)
Fixpoint probed (n : nat) (start_id : Z) : list Z :=
  match n with
  | O => []
  | S n' => start_id :: probed n' (start_id - 1)
  end.

(** The accepted matches among the answers of the service to these
    identifiers, in the order of the identifiers. *)
Definition accepted_of (service : Z -> outcome Match) (ids : list Z) : list Match :=
  ids ≫= (fun i => match service i with
                   | Ret m => if decide (accepted m) then [m] else []
                   | Raise _ => []
                   end).

(** The rows that accepting the matches [ms], in this order, adds to the
    file when [read_records] records were read before. *)
Definition run_rows (read_records : Z) (ms : list Match) : list row :=
  match ms with
  | [] => []
  | _ => header_if_first read_records ++ (ms ≫= match_rows)
  end.

(** The file system after these matches were accepted. *)
Definition appended (path : string) (read_records : Z) (ms : list Match)
    (fs : gmap string (list row)) : gmap string (list row) :=
  match ms with
  | [] => fs
  | _ => <[path := file_rows fs path ++ run_rows read_records ms]> fs
  end.

(** Why a loop stopped on the exception [e] after [n] attempts: the service
    failed on the last one, or the sleep length is negative. *)
Definition raised_by (service : Z -> outcome Match) (sleep_time current_id : Z)
    (n : nat) (e : exn) : Prop :=
  (∃ k, n = S k ∧ service (current_id - Z.of_nat k) = Raise e)
  ∨ (sleep_time < 0 ∧ n = 0%nat ∧ e = error_negative_sleep).

(** What [n] iterations of the loop leave behind, in terms of the matches
    accepted among the identifiers probed. *)
Definition loop_post (service : Z -> outcome Match) (filename : string)
    (max_records sleep_time read_records current_id : Z) (w : World) (n : nat)
    (res : option (outcome (Z * Z)) * World) : Prop :=
  let ms := accepted_of service (probed n current_id) in
  files res.2 = appended filename read_records ms (files w)
  ∧ fetches (trace res.2) = fetches (trace w) ++ probed n current_id
  ∧ match res.1 with
    | Some (Ret (read_records', current_id')) =>
        read_records' = read_records + Z.of_nat (length ms)
        ∧ read_records' = Z.max read_records max_records
        ∧ current_id' = current_id - Z.of_nat n
    | Some (Raise e) =>
        read_records + Z.of_nat (length ms) < max_records
        ∧ raised_by service sleep_time current_id n e
    | None => read_records + Z.of_nat (length ms) < max_records
    end.

(** What a run of [get_match_records] leaves behind after [n] attempts. *)
Definition run_post (service : Z -> outcome Match) (filename : string)
    (start_id max_records sleep_time : Z) (w : World) (n : nat)
    (res : option (outcome unit) * World) : Prop :=
  let ms := accepted_of service (probed n start_id) in
  files res.2 = appended filename 0 ms (files w)
  ∧ fetches (trace res.2) = fetches (trace w) ++ probed n start_id
  ∧ match res.1 with
    | Some (Ret _) => Z.of_nat (length ms) = Z.max 0 max_records
    | Some (Raise e) =>
        Z.of_nat (length ms) < max_records
        ∧ raised_by service sleep_time start_id n e
    | None => Z.of_nat (length ms) < max_records
    end.

(** The output file of a completed run that was asked for [max_records >= 1]
    records on a file that did not exist. *)
Definition holds_run (path : string) (max_records : Z) (w : World) : Prop :=
  ∃ ms, Forall accepted ms
    ∧ Z.of_nat (length ms) = max_records
    ∧ files w !! path = Some (header :: (ms ≫= match_rows))
    ∧ Z.of_nat (length (ms ≫= match_rows)) = 2 * max_records
    ∧ Z.of_nat (length (file_rows (files w) path)) = 1 + 2 * max_records.

(** ** Traces of runs *)

(** [read_records] after the iteration on the identifier [i]. *)
Definition next_read_records (service : Z -> outcome Match) (read_records i : Z) : Z :=
  match service i with
  | Ret m => if decide (accepted m) then read_records + 1 else read_records
  | Raise _ => read_records
  end.

(** One open-write-close cycle on the file. *)
Definition file_session (path : string) (rows : list row) : list event :=
  [EvOpen path] ++ (EvWriteRow path <$> rows) ++ [EvClose path].

(** The events of the iteration on the identifier [i], by the answer of the
    service. *)
Definition iteration_events (service : Z -> outcome Match) (filename : string)
    (max_records sleep_time read_records i : Z) : list event :=
  [EvSleep sleep_time; EvGetMatch i]
  ++ match service i with
     | Ret m =>
         if decide (accepted m) then
           EvPrint (MsgAdded (id m) (read_records + 1) max_records)
           :: file_session filename (header_if_first read_records ++ match_rows m)
         else [EvPrint (rejection_message m)]
     | Raise _ => []
     end.

(** The events of successive iterations on these identifiers. *)
Fixpoint run_events (service : Z -> outcome Match) (filename : string)
    (max_records sleep_time read_records : Z) (ids : list Z) : list event :=
  match ids with
  | [] => []
  | i :: ids' =>
      iteration_events service filename max_records sleep_time read_records i
      ++ run_events service filename max_records sleep_time
           (next_read_records service read_records i) ids'
  end.

(** The sleeps and remote calls of a trace. *)
Definition is_pace_event (e : event) : bool :=
  match e with EvSleep _ | EvGetMatch _ => true | _ => false end.

(** The file sessions of a run that accepts the matches [ms], in this
    order, after [read_records] earlier records. *)
Definition sessions_of (path : string) (read_records : Z) (ms : list Match) : list event :=
  match ms with
  | [] => []
  | m :: ms' =>
      file_session path (header_if_first read_records ++ match_rows m)
      ++ (ms' ≫= fun m' => file_session path (match_rows m'))
  end.

(** Both teams of the match have five ban slots and five participants. *)
Definition five_a_side (m : Match) : Prop :=
  length (bans (blue_team m)) = 5%nat ∧ length (participants (blue_team m)) = 5%nat
  ∧ length (bans (red_team m)) = 5%nat ∧ length (participants (red_team m)) = 5%nat.

(** * A concrete scenario

    The service knows one match in the range probed: identifiers 1000, 999
    and 998 do not exist, 997 is a classic ranked solo game. *)

(** [int] on plain decimal numerals with an optional sign: enough of
    Python's [int] for the command lines below. *)
Definition digit_of (c : ascii) : option Z :=
  let n := Z.of_N (N_of_ascii c) in
  if (48 <=? n) && (n <=? 57) then Some (n - 48) else None.

Fixpoint digits (acc : Z) (s : string) : option Z :=
  match s with
  | EmptyString => Some acc
  | String c s' =>
      match digit_of c with
      | Some d => digits (10 * acc + d) s'
      | None => None
      end
  end.

Definition decimal (s : string) : option Z :=
  match s with
  | EmptyString => None
  | String "-"%char (String c s') => Z.opp <$> digits 0 (String c s')
  | String "+"%char (String c s') => digits 0 (String c s')
  | _ => digits 0 s
  end.

Definition example_team (s : Side) (won : bool) (banned : list (option Champion)) : Team :=
  {| side := s; win := won; bans := banned;
     participants := (fun n => {| champion := {| name := n |} |})
                       <$> ["Ahri"; "Garen"; "Jinx"; "Thresh"; "Lee Sin"];
     tower_kills := 9; inhibitor_kills := 2; dragon_kills := 3;
     rift_herald_kills := 1; baron_kills := 1;
     first_tower := won; first_inhibitor := won; first_dragon := negb won;
     first_rift_herald := won; first_baron := negb won |}.

Definition five_bans : list (option Champion) :=
  [None; Some {| name := "Zed" |}; Some {| name := "Yasuo" |}; None;
   Some {| name := "Teemo" |}].

Definition three_bans : list (option Champion) :=
  [Some {| name := "Zed" |}; Some {| name := "Yasuo" |}; Some {| name := "Teemo" |}].

Definition example_match (match_id : Z) (found : bool) : Match :=
  {| id := match_id; version := "9.3.1"; exists_ := found;
     mode := classic; queue := ranked_solo_fives;
     red_team := example_team red false five_bans;
     blue_team := example_team blue true five_bans |}.

Definition scenario_match : Match := example_match 997 true.

(** A match of the seasons when each team had three bans. *)
Definition three_ban_match : Match :=
  {| id := 42; version := "6.24.1"; exists_ := true;
     mode := classic; queue := ranked_solo_fives;
     red_team := example_team red false three_bans;
     blue_team := example_team blue true three_bans |}.

Definition example_service (match_id : Z) : outcome Match :=
  if match_id =? 997 then Ret (example_match match_id true)
  else Ret (example_match match_id false).

(** A service that knows no match at all. *)
Definition barren_service (match_id : Z) : outcome Match :=
  Ret (example_match match_id false).

(** A service that fails on identifier 998. *)
Definition failing_service (match_id : Z) : outcome Match :=
  if match_id =? 998 then Raise (ServiceError "503")
  else Ret (example_match match_id false).

Definition empty_world : World := {| files := ∅; trace := [] |}.

(** A world in which the output file of an earlier run is still there. *)
Definition second_run_world : World :=
  {| files := {[ "matches.csv" := [header] ]}; trace := [] |}.

Definition example_argv : list string :=
  ["retrieve_matches.py"; "matches.csv"; "1000"; "1"].

(** The run of the scenario, by [get_match_records] and by [main]. *)
Definition scenario_run : option (outcome unit) * World :=
  get_match_records example_service 10 "matches.csv" 1000 1 0 empty_world.

Definition scenario_main : option (outcome unit) * World :=
  main example_service decimal 10 example_argv empty_world.

(** The run that is asked for no record. *)
Definition zero_run : option (outcome unit) * World :=
  get_match_records example_service 10 "matches.csv" 1000 0 3 empty_world.

(** * Properties *)

(** ** Row extraction *)

Lemma team_row_layout (m : Match) (t : Team) :
  team_row m t =
    [PyInt (id m); PyStr (version m); PyStr (Side_name (side t)); PyBool (win t)]
    ++ (ban_field <$> bans t) ++ (champion_field <$> participants t) ++ statistics t.
Proof.
  unfold team_row, statistics. cbv zeta.
  rewrite <- !app_assoc. reflexivity.
Qed.

Lemma team_row_length (m : Match) (t : Team) :
  length (team_row m t) = (4 + length (bans t) + length (participants t) + 10)%nat.
Proof.
  rewrite team_row_layout. unfold statistics.
  rewrite !length_app, !length_fmap. simpl. lia.
Qed.

Lemma get_team_stats_red (m : Match) :
  get_team_stats "red" m = Ret (team_row m (red_team m)).
Proof. reflexivity. Qed.

Lemma get_team_stats_blue (m : Match) :
  get_team_stats "blue" m = Ret (team_row m (blue_team m)).
Proof. reflexivity. Qed.

Lemma get_team_stats_selects (team : string) (m : Match) (t : Team) :
  selects team m t → get_team_stats team m = Ret (team_row m t).
Proof.
  intros [[-> ->] | [-> ->]]; reflexivity.
Qed.

Lemma get_team_stats_Ret (team : string) (m : Match) (r : row) :
  get_team_stats team m = Ret r → ∃ t, selects team m t ∧ r = team_row m t.
Proof.
  unfold get_team_stats, selects.
  destruct (String.eqb_spec team "red") as [-> | Hred].
  - intros [= <-]. eauto.
  - destruct (String.eqb_spec team "blue") as [-> | Hblue].
    + intros [= <-]. eauto.
    + discriminate.
Qed.

Lemma get_team_stats_unknown (team : string) (m : Match) :
  team ≠ "red" → team ≠ "blue" → get_team_stats team m = Raise error_unknown_team.
Proof.
  intros Hred Hblue. unfold get_team_stats.
  destruct (String.eqb_spec team "red"); [done |].
  destruct (String.eqb_spec team "blue"); done.
Qed.

Lemma team_row_ban (m : Match) (t : Team) (i : nat) (ban : option Champion) :
  bans t !! i = Some ban → team_row m t !! (4 + i)%nat = Some (ban_field ban).
Proof.
  intros Hban. rewrite team_row_layout.
  rewrite lookup_app_r by (simpl; lia).
  replace (4 + i - length _)%nat with i by (simpl; lia).
  apply lookup_lt_Some in Hban as Hlt.
  rewrite lookup_app_l by (rewrite length_fmap; lia).
  rewrite list_lookup_fmap, Hban. reflexivity.
Qed.

(** C8: an empty ban slot of the selected team gives the empty string in the
    field of that slot (field [4 + i] for slot [i]) of the team's row; a
    selector other than 'red' and 'blue' raises [ValueError] and gives no
    row. *)
Theorem get_team_stats_empty_ban_and_unknown_selector (team : string) (m : Match) :
  (∀ (t : Team) (i : nat),
      selects team m t → bans t !! i = Some None →
      ∃ r, get_team_stats team m = Ret r ∧ r !! (4 + i)%nat = Some (PyStr ""))
  ∧ (team ≠ "red" → team ≠ "blue" →
      get_team_stats team m = Raise error_unknown_team
      ∧ ∀ r, get_team_stats team m ≠ Ret r).
Proof.
  split.
  - intros t i Hsel Hban. exists (team_row m t). split.
    + by apply get_team_stats_selects.
    + by apply (team_row_ban m t i None).
  - intros Hred Hblue. rewrite get_team_stats_unknown by done. split; [done | discriminate].
Qed.

(** C9, as the code has it: the row of a valid selector is the match id, the
    version, the side name and the win flag, then one field per ban slot, one
    per participant, and the ten statistics, in this order; it has
    [4 + #bans + #participants + 10] fields, which is 24 for a team with
    five ban slots and five participants. *)
Theorem get_team_stats_row_fields (team : string) (m : Match) (r : row) :
  get_team_stats team m = Ret r →
  ∃ t, selects team m t
    ∧ r = [PyInt (id m); PyStr (version m); PyStr (Side_name (side t)); PyBool (win t)]
          ++ (ban_field <$> bans t) ++ (champion_field <$> participants t)
          ++ [PyInt (tower_kills t); PyInt (inhibitor_kills t); PyInt (dragon_kills t);
              PyInt (rift_herald_kills t); PyInt (baron_kills t); PyBool (first_tower t);
              PyBool (first_inhibitor t); PyBool (first_dragon t);
              PyBool (first_rift_herald t); PyBool (first_baron t)]
    ∧ length r = (4 + length (bans t) + length (participants t) + 10)%nat
    ∧ (length (bans t) = 5%nat → length (participants t) = 5%nat → length r = 24%nat).
Proof.
  intros Hrow. apply get_team_stats_Ret in Hrow as (t & Hsel & ->).
  exists t. split; [done |]. split; [apply team_row_layout |].
  rewrite team_row_length. split; lia.
Qed.

(** ** One iteration of the retrieval loop *)

Lemma open_append_files (fs : gmap string (list row)) (path : string) :
  match fs !! path with Some _ => fs | None => <[path := []]> fs end
  = <[path := file_rows fs path]> fs.
Proof.
  unfold file_rows. destruct (fs !! path) as [rows |] eqn:Hrows; simpl.
  - symmetry. by apply insert_id.
  - reflexivity.
Qed.

Lemma file_rows_insert (fs : gmap string (list row)) (path : string) (rows : list row) :
  file_rows (<[path := rows]> fs) path = rows.
Proof. unfold file_rows. by rewrite lookup_insert_eq. Qed.

Lemma new_events_app (w w' : World) (evs : list event) :
  trace w' = trace w ++ evs → new_events w w' = evs.
Proof. intros Htrace. unfold new_events. rewrite Htrace. apply drop_app_length. Qed.

Lemma rows_not_fixpoint (rows extra : list row) :
  extra ≠ [] → rows ++ extra ≠ rows.
Proof.
  intros Hextra Heq. apply (f_equal length) in Heq.
  rewrite length_app in Heq. destruct extra; [done | simpl in Heq; lia].
Qed.

Lemma time_sleep_nonneg (seconds : Z) (w : World) :
  0 ≤ seconds →
  time_sleep seconds w
  = (Ret tt, {| files := files w; trace := trace w ++ [EvSleep seconds] |}).
Proof.
  intros Hsec. unfold time_sleep.
  destruct (Z.ltb_spec seconds 0); [lia | reflexivity].
Qed.

Section Iteration.

Variable service : Z -> outcome Match.
Variables (filename : string) (max_records sleep_time : Z).

Local Abbreviation body := (loop_body service filename max_records sleep_time).

Lemma loop_body_negative_sleep (read_records current_id : Z) (w : World) :
  sleep_time < 0 → body read_records current_id w = (Raise error_negative_sleep, w).
Proof.
  intros Hneg. unfold loop_body, bind, time_sleep.
  destruct (Z.ltb_spec sleep_time 0); [reflexivity | lia].
Qed.

Lemma loop_body_raise (read_records current_id : Z) (w : World) (e : exn) :
  0 ≤ sleep_time → service current_id = Raise e →
  body read_records current_id w
  = (Raise e, {| files := files w;
                 trace := trace w ++ [EvSleep sleep_time; EvGetMatch current_id] |}).
Proof.
  intros Hsleep Hsvc.
  unfold loop_body, bind. rewrite time_sleep_nonneg by done.
  unfold cassiopeia_get_match, bind, emit, lift.
  simpl. rewrite Hsvc. by rewrite <- app_assoc.
Qed.

Lemma loop_body_rejected (read_records current_id : Z) (w : World) (m : Match) :
  0 ≤ sleep_time → service current_id = Ret m → ¬ accepted m →
  body read_records current_id w
  = (Ret (read_records, current_id - 1),
     {| files := files w;
        trace := trace w ++ [EvSleep sleep_time; EvGetMatch current_id;
                             EvPrint (rejection_message m)] |}).
Proof.
  intros Hsleep Hsvc Hrej.
  unfold loop_body, bind. rewrite time_sleep_nonneg by done.
  unfold cassiopeia_get_match, bind, print, emit, lift, ret.
  simpl. rewrite Hsvc. unfold rejection_message.
  destruct (exists_ m) eqn:Hex; simpl.
  - destruct (decide (mode m = classic)) as [Hmode | Hmode];
      destruct (decide (queue m = ranked_solo_fives)) as [Hqueue | Hqueue].
    + exfalso. apply Hrej. by repeat split.
    + rewrite (bool_decide_eq_false_2 _ Hqueue), orb_true_r. simpl.
      by rewrite <- !app_assoc.
    + rewrite (bool_decide_eq_false_2 _ Hmode). simpl. by rewrite <- !app_assoc.
    + rewrite (bool_decide_eq_false_2 _ Hmode). simpl. by rewrite <- !app_assoc.
  - by rewrite <- !app_assoc.
Qed.

Lemma loop_body_accepted (read_records current_id : Z) (w : World) (m : Match) :
  0 ≤ sleep_time → service current_id = Ret m → accepted m →
  body read_records current_id w
  = (Ret (read_records + 1, current_id - 1),
     {| files := <[filename := file_rows (files w) filename
                                ++ header_if_first read_records ++ match_rows m]> (files w);
        trace := trace w
                 ++ [EvSleep sleep_time; EvGetMatch current_id;
                     EvPrint (MsgAdded (id m) (read_records + 1) max_records);
                     EvOpen filename]
                 ++ (EvWriteRow filename <$> header_if_first read_records ++ match_rows m)
                 ++ [EvClose filename] |}).
Proof.
  intros Hsleep Hsvc (Hex & Hmode & Hqueue).
  unfold loop_body, bind. rewrite time_sleep_nonneg by done.
  unfold cassiopeia_get_match, bind, print, emit, lift, ret.
  simpl. rewrite Hsvc, Hex. simpl.
  rewrite (bool_decide_eq_true_2 _ Hmode), (bool_decide_eq_true_2 _ Hqueue). simpl.
  unfold with_open, open_append, close, emit, bind, writerow, lift, ret, header_if_first.
  simpl. rewrite open_append_files.
  destruct (read_records =? 0); simpl;
    rewrite !alter_insert_eq, <- !app_assoc; reflexivity.
Qed.

(** C2: an iteration that fetches a match completes with [current_id]
    decremented by one, whether the match is accepted or not, and with
    [read_records] incremented by one when the match is accepted and
    unchanged when it is rejected; no iteration that completes changes the
    two variables in another way. *)
Theorem loop_body_counters (read_records current_id : Z) (w : World) :
  (∀ m, 0 ≤ sleep_time → service current_id = Ret m →
     (body read_records current_id w).1
     = Ret (if decide (accepted m) then read_records + 1 else read_records,
            current_id - 1))
  ∧ (∀ read_records' current_id' w',
       body read_records current_id w = (Ret (read_records', current_id'), w') →
       current_id' = current_id - 1
       ∧ (read_records' = read_records ∨ read_records' = read_records + 1)).
Proof.
  split.
  - intros m Hsleep Hsvc. destruct (decide (accepted m)) as [Hacc | Hrej].
    + by rewrite (loop_body_accepted _ _ _ m).
    + by rewrite (loop_body_rejected _ _ _ m).
  - intros read_records' current_id' w'.
    destruct (Z.ltb_spec sleep_time 0) as [Hneg | Hsleep].
    { by rewrite loop_body_negative_sleep. }
    destruct (service current_id) as [m | e] eqn:Hsvc.
    + destruct (decide (accepted m)) as [Hacc | Hrej].
      * rewrite (loop_body_accepted _ _ _ m) by done. intros [= <- <- <-]. auto.
      * rewrite (loop_body_rejected _ _ _ m) by done. intros [= <- <- <-]. auto.
    + by rewrite (loop_body_raise _ _ _ e).
Qed.

(** C4: the iteration that fetched a match writes to the file system exactly
    when the match exists, is of mode classic and of queue ranked solo fives;
    then the rows of both teams are appended to the output file and the
    record is counted; otherwise nothing is written and the counter stays. *)
Theorem loop_body_accepts_iff (read_records current_id : Z) (w : World) (m : Match) :
  0 ≤ sleep_time →
  service current_id = Ret m →
  let res := body read_records current_id w in
  (files res.2 ≠ files w ↔ accepted m)
  ∧ (accepted m →
       res.1 = Ret (read_records + 1, current_id - 1)
       ∧ get_team_stats "blue" m = Ret (team_row m (blue_team m))
       ∧ get_team_stats "red" m = Ret (team_row m (red_team m))
       ∧ files res.2 !! filename
         = Some (file_rows (files w) filename ++ header_if_first read_records
                 ++ [team_row m (blue_team m); team_row m (red_team m)]))
  ∧ (¬ accepted m →
       res.1 = Ret (read_records, current_id - 1) ∧ files res.2 = files w).
Proof.
  intros Hsleep Hsvc res. subst res.
  destruct (decide (accepted m)) as [Hacc | Hrej].
  - rewrite (loop_body_accepted _ _ _ m) by done. simpl.
    assert (Hrows :
      <[filename := file_rows (files w) filename
                    ++ header_if_first read_records ++ match_rows m]> (files w)
        !! filename
      = Some (file_rows (files w) filename ++ header_if_first read_records
              ++ match_rows m)) by apply lookup_insert_eq.
    split; [| split; [| done]].
    + split; [done |]. intros _ Heq. rewrite Heq in Hrows.
      unfold file_rows in Hrows.
      destruct (files w !! filename) as [rows |]; [| done].
      simpl in Hrows. injection Hrows as Hrows.
      symmetry in Hrows. revert Hrows. apply rows_not_fixpoint.
      unfold match_rows. by destruct (header_if_first read_records).
    + intros _. by repeat split.
  - rewrite (loop_body_rejected _ _ _ m) by done. simpl.
    split; [| split; [done |]].
    + split; [done | done].
    + intros _. by split.
Qed.

(** C10: an iteration whose match is rejected leaves every file as it was and
    adds no open, write or close to the trace; an iteration whose match is
    accepted opens the output file. *)
Theorem loop_body_rejected_untouched (read_records current_id : Z) (w : World) (m : Match) :
  0 ≤ sleep_time →
  service current_id = Ret m →
  let res := body read_records current_id w in
  (¬ accepted m →
     files res.2 = files w
     ∧ Forall (fun e => is_file_event e = false) (new_events w res.2))
  ∧ (accepted m → EvOpen filename ∈ new_events w res.2).
Proof.
  intros Hsleep Hsvc res. subst res. split.
  - intros Hrej. rewrite (loop_body_rejected _ _ _ m) by done. simpl.
    split; [done |].
    erewrite new_events_app by (simpl; reflexivity).
    repeat constructor.
  - intros Hacc. rewrite (loop_body_accepted _ _ _ m) by done. simpl.
    erewrite new_events_app by (simpl; reflexivity).
    set_solver.
Qed.

End Iteration.

(** ** The whole loop *)

Lemma probed_length (n : nat) (start_id : Z) : length (probed n start_id) = n.
Proof. revert start_id. induction n as [| n IH]; intros; simpl; [done | by rewrite IH]. Qed.

Lemma probed_lookup (n k : nat) (start_id : Z) :
  (k < n)%nat → probed n start_id !! k = Some (start_id - Z.of_nat k).
Proof.
  revert k start_id. induction n as [| n IH]; intros k start_id Hlt; [lia |].
  destruct k as [| k]; simpl.
  - f_equal. lia.
  - rewrite IH by lia. f_equal. lia.
Qed.

Lemma header_if_first_succ (read_records : Z) :
  0 ≤ read_records → header_if_first (read_records + 1) = [].
Proof.
  intros Hrr. unfold header_if_first.
  destruct (Z.eqb_spec (read_records + 1) 0); [lia | done].
Qed.

Lemma appended_step (path : string) (read_records : Z) (m : Match) (ms : list Match)
    (fs : gmap string (list row)) :
  0 ≤ read_records →
  appended path (read_records + 1) ms
    (<[path := file_rows fs path ++ header_if_first read_records ++ match_rows m]> fs)
  = appended path read_records (m :: ms) fs.
Proof.
  intros Hrr. unfold appended, run_rows. destruct ms as [| m' ms].
  - reflexivity.
  - rewrite insert_insert_eq, file_rows_insert, header_if_first_succ by done.
    f_equal. simpl. by rewrite <- !app_assoc.
Qed.

Lemma file_rows_appended (path : string) (read_records : Z) (ms : list Match)
    (fs : gmap string (list row)) :
  file_rows (appended path read_records ms fs) path
  = file_rows fs path ++ run_rows read_records ms.
Proof.
  unfold appended. destruct ms as [| m ms].
  - simpl. by rewrite app_nil_r.
  - by rewrite file_rows_insert.
Qed.

Lemma run_rows_first (ms : list Match) :
  ms ≠ [] → run_rows 0 ms = header :: (ms ≫= match_rows).
Proof. by destruct ms. Qed.

Lemma fetches_app (tr1 tr2 : list event) :
  fetches (tr1 ++ tr2) = fetches tr1 ++ fetches tr2.
Proof. apply omap_app. Qed.

Lemma fetches_writerow (path : string) (rows : list row) :
  fetches (EvWriteRow path <$> rows) = [].
Proof. induction rows as [| r rows IH]; [done | exact IH]. Qed.

Lemma fetches_accepted (seconds match_id : Z) (msg : message) (path : string)
    (rows : list row) :
  fetches ([EvSleep seconds; EvGetMatch match_id; EvPrint msg; EvOpen path]
           ++ (EvWriteRow path <$> rows) ++ [EvClose path]) = [match_id].
Proof. rewrite !fetches_app, fetches_writerow. reflexivity. Qed.

Lemma header_is_not_match_row (m : Match) : header ∉ match_rows m.
Proof.
  unfold match_rows. rewrite !team_row_layout.
  intros Hin. apply list_elem_of_In in Hin.
  destruct Hin as [Heq | [Heq | []]]; discriminate Heq.
Qed.

Lemma header_not_in_data (ms : list Match) : header ∉ ms ≫= match_rows.
Proof.
  intros Hin. apply list_elem_of_bind in Hin as (m & Hin & _).
  by apply header_is_not_match_row in Hin.
Qed.

Lemma data_length (ms : list Match) :
  length (ms ≫= match_rows) = (2 * length ms)%nat.
Proof.
  induction ms as [| m ms IH]; [done |].
  change (length (match_rows m ++ (ms ≫= match_rows)) = (2 * S (length ms))%nat).
  rewrite length_app, IH. simpl. lia.
Qed.

Lemma bind_match_rows_split (ms : list Match) (m : Match) :
  m ∈ ms → ∃ before after, ms ≫= match_rows = before ++ match_rows m ++ after.
Proof.
  intros Hin. apply list_elem_of_split in Hin as (ms1 & ms2 & ->).
  exists (ms1 ≫= match_rows), (ms2 ≫= match_rows).
  by rewrite bind_app.
Qed.

Lemma accepted_of_Forall (service : Z -> outcome Match) (ids : list Z) :
  Forall accepted (accepted_of service ids).
Proof.
  apply Forall_forall. intros m Hin.
  apply list_elem_of_bind in Hin as (i & Hin & _).
  destruct (service i) as [m' | e]; [| by apply not_elem_of_nil in Hin].
  destruct (decide (accepted m')) as [Hacc | Hrej]; [| by apply not_elem_of_nil in Hin].
  apply list_elem_of_singleton in Hin. by subst.
Qed.

Lemma accepted_of_cons (service : Z -> outcome Match) (i : Z) (ids : list Z) :
  accepted_of service (i :: ids) = accepted_of service [i] ++ accepted_of service ids.
Proof. unfold accepted_of. simpl. by rewrite app_nil_r. Qed.

Lemma raised_by_step (service : Z -> outcome Match) (sleep_time current_id : Z)
    (n : nat) (e : exn) :
  0 ≤ sleep_time →
  raised_by service sleep_time (current_id - 1) n e →
  raised_by service sleep_time current_id (S n) e.
Proof.
  intros Hsleep [(k & -> & Hk) | (Hneg & _)]; [| lia].
  left. exists (S k). split; [done |]. rewrite <- Hk. f_equal. lia.
Qed.

Section Loop.

Variable service : Z -> outcome Match.
Variables (filename : string) (max_records sleep_time : Z).

Local Abbreviation loop := (while_loop service).
Local Abbreviation post := (loop_post service filename max_records sleep_time).

(** The loop from a state in which the next iteration leads to the state
    [(read_records', current_id', w1)]. *)
Lemma loop_post_step (read_records current_id : Z) (w w1 : World)
    (n : nat) (read_records' : Z) (this : list Match)
    (res : option (outcome (Z * Z)) * World) :
  0 ≤ sleep_time →
  read_records < max_records →
  accepted_of service [current_id] = this →
  read_records' = read_records + Z.of_nat (length this) →
  files w1 = appended filename read_records this (files w) →
  fetches (trace w1) = fetches (trace w) ++ [current_id] →
  0 ≤ read_records →
  post read_records' (current_id - 1) w1 n res →
  post read_records current_id w (S n) res.
Proof.
  intros Hsleep Hlt Hthis Hrr' Hfiles1 Hfetch1 Hrr (Hfiles & Hfetch & Hres).
  unfold loop_post. cbn [probed].
  rewrite accepted_of_cons, Hthis.
  set (ms := accepted_of service (probed n (current_id - 1))) in *.
  assert (Hcases : this = [] ∨ ∃ m, this = [m]).
  { unfold accepted_of in Hthis. simpl in Hthis. rewrite app_nil_r in Hthis.
    destruct (service current_id) as [m | e]; [| by left].
    destruct (decide (accepted m)); [right | left]; eauto. }
  assert (Hone : (length this ≤ 1)%nat).
  { destruct Hcases as [-> | [m ->]]; simpl; lia. }
  assert (Hlen : read_records + Z.of_nat (length (this ++ ms))
                 = read_records' + Z.of_nat (length ms)).
  { rewrite length_app. lia. }
  split; [| split].
  - rewrite Hfiles, Hfiles1.
    destruct Hcases as [-> | [m ->]]; simpl in Hrr'.
    + replace read_records' with read_records by lia. reflexivity.
    + replace read_records' with (read_records + 1) by lia.
      unfold appended at 2, run_rows.
      replace (header_if_first read_records ++ ([m] ≫= match_rows))
        with (header_if_first read_records ++ match_rows m) by done.
      by apply appended_step.
  - rewrite Hfetch, Hfetch1. by rewrite <- app_assoc.
  - destruct res.1 as [[[rr' id'] | e] |].
    + destruct Hres as (Hrr'' & Hmax & ->). repeat split; lia.
    + destruct Hres as (Hless & Hraised). split; [lia |].
      by apply raised_by_step.
    + lia.
Qed.

Lemma while_loop_spec (fuel : nat) :
  ∀ (read_records current_id : Z) (w : World),
    0 ≤ read_records →
    ∃ n, (n ≤ fuel)%nat
      ∧ post read_records current_id w n
          (loop fuel filename max_records sleep_time read_records current_id w).
Proof.
  induction fuel as [| fuel IH]; intros read_records current_id w Hrr.
  - exists 0%nat. split; [done |]. unfold loop_post. simpl.
    destruct (Z.ltb_spec read_records max_records); simpl; rewrite app_nil_r;
      repeat split; lia.
  - simpl. destruct (Z.ltb_spec read_records max_records) as [Hlt | Hge].
    2:{ exists 0%nat. split; [lia |]. unfold loop_post. simpl. rewrite app_nil_r.
        repeat split; lia. }
    destruct (Z.ltb_spec sleep_time 0) as [Hneg | Hsleep].
    { rewrite loop_body_negative_sleep by done.
      exists 0%nat. split; [lia |]. unfold loop_post. simpl. rewrite app_nil_r.
      repeat split; [lia |]. right. by repeat split. }
    destruct (service current_id) as [m | e] eqn:Hsvc.
    + destruct (decide (accepted m)) as [Hacc | Hrej].
      * rewrite (loop_body_accepted _ _ _ _ _ _ _ m) by done.
        match goal with |- context [while_loop _ _ _ _ _ ?r ?i ?w1] =>
          set (w' := w1); destruct (IH r i w' ltac:(lia)) as (n & Hn & Hpost)
        end.
        exists (S n). split; [lia |].
        eapply (loop_post_step _ _ _ w' _ (read_records + 1) [m]); try done.
        -- unfold accepted_of. simpl. rewrite Hsvc. by rewrite decide_True.
        -- subst w'. cbn [trace]. by rewrite fetches_app, fetches_accepted.
      * rewrite (loop_body_rejected _ _ _ _ _ _ _ m) by done.
        match goal with |- context [while_loop _ _ _ _ _ ?r ?i ?w1] =>
          set (w' := w1); destruct (IH r i w' ltac:(lia)) as (n & Hn & Hpost)
        end.
        exists (S n). split; [lia |].
        eapply (loop_post_step _ _ _ w' _ read_records []); try done.
        -- unfold accepted_of. simpl. rewrite Hsvc. by rewrite decide_False.
        -- simpl. lia.
        -- subst w'. cbn [trace]. by rewrite fetches_app.
    + rewrite (loop_body_raise _ _ _ _ _ _ _ e) by done.
      exists 1%nat. split; [lia |]. unfold loop_post, accepted_of. simpl.
      rewrite Hsvc. simpl.
      split; [done |]. split; [by rewrite fetches_app |].
      split; [lia |]. left. exists 0%nat. split; [done |].
      rewrite <- Hsvc. f_equal. lia.
Qed.

End Loop.

(** ** A run of [get_match_records] *)

Section Run.

Variable service : Z -> outcome Match.
Variables (filename : string) (start_id sleep_time : Z).

Local Abbreviation run fuel max_records :=
  (get_match_records service fuel filename start_id max_records sleep_time).

Lemma get_match_records_spec (fuel : nat) (max_records : Z) (w : World) :
  ∃ n, (n ≤ fuel)%nat
    ∧ run_post service filename start_id max_records sleep_time w n
        (run fuel max_records w).
Proof.
  unfold get_match_records, emit. cbn [files trace].
  match goal with |- context [while_loop _ _ _ _ _ ?r ?i ?w1] =>
    destruct (while_loop_spec service filename max_records sleep_time fuel r i w1
                ltac:(done)) as (n & Hn & Hfiles & Hfetch & Hres);
    destruct (while_loop service fuel filename max_records sleep_time r i w1)
      as [res w'] eqn:Hloop
  end.
  cbn [fst snd files trace] in Hfiles, Hfetch, Hres.
  exists n. split; [done |]. unfold run_post.
  assert (Hfetch' : fetches (trace w') = fetches (trace w) ++ probed n start_id).
  { rewrite Hfetch, !fetches_app. simpl. by rewrite !app_nil_r. }
  destruct res as [[[rr' id'] | e] |]; cbn [fst snd]; repeat split; try done.
  - destruct Hres as (Hlen & Hmax & _). lia.
  - by destruct Hres as [Hless _].
  - by destruct Hres as [_ Hraised].
Qed.

Lemma completed_run_rows (fuel : nat) (max_records : Z) (w w' : World) :
  1 ≤ max_records →
  files w !! filename = None →
  run fuel max_records w = (Some (Ret tt), w') →
  holds_run filename max_records w'.
Proof.
  intros Hmax Hnew Hrun.
  destruct (get_match_records_spec fuel max_records w) as (n & _ & Hfiles & _ & Hres).
  rewrite Hrun in Hfiles, Hres. cbn [fst snd] in Hfiles, Hres.
  set (ms := accepted_of service (probed n start_id)) in *.
  assert (Hlen : Z.of_nat (length ms) = max_records) by lia.
  assert (Hne : ms ≠ []) by (intros Heq; rewrite Heq in Hlen; simpl in Hlen; lia).
  assert (Hrows : file_rows (files w') filename = header :: (ms ≫= match_rows)).
  { rewrite Hfiles, file_rows_appended, run_rows_first by done.
    unfold file_rows. by rewrite Hnew. }
  exists ms. split; [apply accepted_of_Forall |]. split; [done |].
  split; [| split].
  - rewrite Hfiles. unfold appended. destruct ms as [| m ms']; [done |].
    rewrite lookup_insert_eq. f_equal.
    rewrite <- Hrows, Hfiles. unfold appended. by rewrite file_rows_insert.
  - rewrite data_length. lia.
  - rewrite Hrows. simpl. rewrite data_length. lia.
Qed.

(** C3, as the code has it: with [max_records = 0] the run completes with
    whatever fuel, without a single iteration (no sleep, no remote call,
    nothing accepted, no row written), and the file system is left as it
    was: an output file that does not exist is not created. *)
Theorem get_match_records_zero (fuel : nat) (w : World) :
  let res := run fuel 0 w in
  res = (Some (Ret tt), {| files := files w; trace := trace w ++ startup_events |})
  ∧ files res.2 = files w
  ∧ fetches (new_events w res.2) = []
  ∧ os_path_exists filename res.2 = os_path_exists filename w.
Proof.
  assert (Hres : run fuel 0 w
    = (Some (Ret tt), {| files := files w; trace := trace w ++ startup_events |})).
  { unfold get_match_records, emit. cbn [files trace].
    destruct fuel; simpl; by rewrite <- app_assoc. }
  cbv zeta. rewrite Hres. cbn [fst snd files trace].
  repeat split. by erewrite new_events_app by (simpl; reflexivity).
Qed.

(** C5, as the code has it: whatever the outcome of the run so far, either no
    match was accepted and nothing was written, or the rows appended to the
    output file are the header followed by the rows of the accepted matches,
    none of which is the header; a completed run has accepted
    [max 0 max_records] matches, so it wrote the header once when
    [max_records >= 1] and not at all otherwise. The header is written by an
    accepting iteration exactly when [read_records] is 0, whatever the
    output file holds. *)
Theorem header_written_on_first_accept :
  (∀ (fuel : nat) (max_records : Z) (w : World),
     let res := run fuel max_records w in
     ∃ ms, Forall accepted ms
       ∧ match ms with
         | [] => files res.2 = files w
         | _ => files res.2 !! filename
                  = Some (file_rows (files w) filename ++ header :: (ms ≫= match_rows))
                ∧ header ∉ ms ≫= match_rows
         end
       ∧ match res.1 with
         | Some (Ret _) => Z.of_nat (length ms) = Z.max 0 max_records
         | _ => Z.of_nat (length ms) < max_records
         end)
  ∧ (∀ (max_records read_records current_id : Z) (w : World) (m : Match),
       0 ≤ sleep_time → service current_id = Ret m → accepted m →
       files (loop_body service filename max_records sleep_time
                read_records current_id w).2 !! filename
       = Some (file_rows (files w) filename
               ++ (if read_records =? 0 then [header] else []) ++ match_rows m)).
Proof.
  split.
  - intros fuel max_records w res. subst res.
    destruct (get_match_records_spec fuel max_records w) as (n & _ & Hfiles & _ & Hres).
    exists (accepted_of service (probed n start_id)).
    split; [apply accepted_of_Forall |]. split.
    + rewrite Hfiles. unfold appended.
      destruct (accepted_of service (probed n start_id)) as [| m ms] eqn:Hms; [done |].
      split; [| apply header_not_in_data].
      by rewrite lookup_insert_eq, run_rows_first.
    + destruct (get_match_records _ _ _ _ _ _ _).1 as [[[] | e] |]; [done | | done].
      by destruct Hres as [Hless _].
  - intros max_records read_records current_id w m Hsleep Hsvc Hacc.
    rewrite (loop_body_accepted _ _ _ _ _ _ _ m) by done. simpl.
    by rewrite lookup_insert_eq.
Qed.

(** C6: the rows a run has appended to the output file are, after the
    header, the rows of the accepted matches in the order they were fetched,
    the row of the blue team of a match immediately followed by the row of
    its red team. *)
Theorem blue_row_before_red_row (fuel : nat) (max_records : Z) (w : World) :
  let res := run fuel max_records w in
  ∃ n, fetches (trace res.2) = fetches (trace w) ++ probed n start_id
    ∧ let ms := accepted_of service (probed n start_id) in
      file_rows (files res.2) filename
      = file_rows (files w) filename
        ++ match ms with
           | [] => []
           | _ => header :: (ms ≫= fun m => [team_row m (blue_team m);
                                              team_row m (red_team m)])
           end
      ∧ ∀ m, m ∈ ms →
          ∃ bteam_info rteam_info before after,
            get_team_stats "blue" m = Ret bteam_info
            ∧ get_team_stats "red" m = Ret rteam_info
            ∧ file_rows (files res.2) filename
              = before ++ bteam_info :: rteam_info :: after.
Proof.
  intros res. subst res.
  destruct (get_match_records_spec fuel max_records w) as (n & _ & Hfiles & Hfetch & _).
  exists n. split; [done |]. cbv zeta.
  rewrite Hfiles, file_rows_appended.
  set (ms := accepted_of service (probed n start_id)).
  split.
  - by destruct ms.
  - intros m Hin.
    destruct (bind_match_rows_split ms m Hin) as (before & after & Hsplit).
    exists (team_row m (blue_team m)), (team_row m (red_team m)),
      (file_rows (files w) filename ++ header :: before), after.
    split; [apply get_team_stats_blue |]. split; [apply get_team_stats_red |].
    rewrite run_rows_first by (intros Heq; rewrite Heq in Hin; by apply not_elem_of_nil in Hin).
    rewrite Hsplit, <- app_assoc. reflexivity.
Qed.

End Run.

(** ** The program *)

Section Main.

Variable service : Z -> outcome Match.
Variable int_of_str : string -> option Z.

Local Abbreviation main' := (main service int_of_str).

(** C1: a run of [get_match_records] with [max_records >= 1] that completes,
    on an output file that does not exist before it, leaves in the file the
    header followed by the two rows of each of exactly [max_records]
    accepted matches: [1 + 2 * max_records] rows; every run that [main]
    starts is one on such a file, so the same holds of every successful run
    of the program. *)
Theorem get_match_records_row_count :
  (∀ (fuel : nat) (filename : string) (start_id max_records sleep_time : Z)
     (w w' : World),
     1 ≤ max_records →
     files w !! filename = None →
     get_match_records service fuel filename start_id max_records sleep_time w
       = (Some (Ret tt), w') →
     ∃ ms, Forall accepted ms
       ∧ Z.of_nat (length ms) = max_records
       ∧ files w' !! filename = Some (header :: (ms ≫= match_rows))
       ∧ Z.of_nat (length (ms ≫= match_rows)) = 2 * max_records
       ∧ Z.of_nat (length (file_rows (files w') filename)) = 1 + 2 * max_records)
  ∧ (∀ (fuel : nat) (prog filename arg2 arg3 : string) (max_records : Z)
       (w w' : World),
       int_of_str arg3 = Some max_records →
       1 ≤ max_records →
       main' fuel [prog; filename; arg2; arg3] w = (Some (Ret tt), w') →
       ∃ ms, Forall accepted ms
         ∧ Z.of_nat (length ms) = max_records
         ∧ files w' !! filename = Some (header :: (ms ≫= match_rows))
         ∧ Z.of_nat (length (ms ≫= match_rows)) = 2 * max_records
         ∧ Z.of_nat (length (file_rows (files w') filename)) = 1 + 2 * max_records).
Proof.
  split.
  - intros fuel filename start_id max_records sleep_time w w' Hmax Hnew Hrun.
    exact (completed_run_rows _ _ _ _ _ _ _ _ Hmax Hnew Hrun).
  - intros fuel prog filename arg2 arg3 max_records w w' Hparse Hmax.
    unfold main. simpl. rewrite Hparse.
    destruct (int_of_str arg2) as [start_id |]; [| discriminate].
    unfold os_path_exists.
    destruct (files w !! filename) as [rows |] eqn:Hnew.
    { rewrite bool_decide_eq_true_2 by eauto. discriminate. }
    rewrite bool_decide_eq_false_2 by (by intros [? ?]).
    unfold print, emit.
    match goal with |- context [get_match_records _ _ _ _ _ _ ?w1] =>
      destruct (get_match_records service fuel filename start_id max_records 3 w1)
        as [[[[] | e] |] w2] eqn:Hrun
    end; [| discriminate | discriminate].
    intros [= <-].
    apply completed_run_rows in Hrun; [| done | done].
    exact Hrun.
Qed.

(** C7: [main] raises the argument-count error when [sys.argv] does not hold
    the program name and three arguments, the parse error when the second or
    the third argument is not an integer, and the file-exists error when the
    output path exists; each time the world is the one [main] started in:
    no remote call was made and no file was created or written. *)
Theorem main_usage_errors (fuel : nat) (w : World) :
  (∀ argv, length argv ≠ 4%nat →
     main' fuel argv w = (Some (Raise error_argument_count), w))
  ∧ (∀ prog filename arg2 arg3,
       int_of_str arg2 = None ∨ int_of_str arg3 = None →
       main' fuel [prog; filename; arg2; arg3] w = (Some (Raise error_invalid_number), w))
  ∧ (∀ prog filename arg2 arg3 start_id max_records,
       int_of_str arg2 = Some start_id → int_of_str arg3 = Some max_records →
       is_Some (files w !! filename) →
       main' fuel [prog; filename; arg2; arg3] w
       = (Some (Raise (error_file_exists filename)), w)).
Proof.
  split; [| split].
  - intros argv Hlen. unfold main.
    destruct (Nat.eqb_spec (length argv) 4) as [Heq | Hne]; [done |]. reflexivity.
  - intros prog filename arg2 arg3 Hparse. unfold main. simpl.
    destruct Hparse as [Hnone | Hnone]; rewrite Hnone; [done |].
    by destruct (int_of_str arg2).
  - intros prog filename arg2 arg3 start_id max_records Hstart Hmax Hexists.
    unfold main. simpl. rewrite Hstart, Hmax. unfold os_path_exists.
    by rewrite bool_decide_eq_true_2.
Qed.

End Main.

(** * The scenario, computed *)

Example decimal_1000 : decimal "1000" = Some 1000.
Proof. reflexivity. Qed.

Example decimal_negative : decimal "-12" = Some (-12).
Proof. reflexivity. Qed.

Example decimal_not_a_number : decimal "12a" = None.
Proof. reflexivity. Qed.

(** The scenario of the specification: four attempts, one header and the two
    rows of match 997. *)
Example scenario_run_result :
  scenario_run.1 = Some (Ret tt)
  ∧ fetches (trace scenario_run.2) = [1000; 999; 998; 997]
  ∧ files scenario_run.2 !! "matches.csv"
    = Some [header;
            team_row scenario_match (blue_team scenario_match);
            team_row scenario_match (red_team scenario_match)]
  ∧ header_writes (trace scenario_run.2) = 1%nat.
Proof. vm_compute. repeat split. Qed.

(** With three units of fuel the loop is still searching. *)
Example scenario_out_of_fuel :
  let res := get_match_records example_service 3 "matches.csv" 1000 1 0 empty_world in
  res.1 = None ∧ files res.2 = ∅ ∧ fetches (trace res.2) = [1000; 999; 998].
Proof. vm_compute. repeat split. Qed.

Example scenario_main_result :
  scenario_main.1 = Some (Ret tt)
  ∧ length (file_rows (files scenario_main.2) "matches.csv") = 3%nat
  ∧ last (trace scenario_main.2) = Some (EvPrint (MsgSuccess 1 "matches.csv")).
Proof. vm_compute. repeat split. Qed.

(** A negative sleep length stops the run at the first iteration. *)
Example negative_sleep_raises :
  get_match_records example_service 10 "matches.csv" 1000 1 (-1) empty_world
  = (Some (Raise error_negative_sleep),
     {| files := ∅; trace := startup_events |}).
Proof. reflexivity. Qed.

Lemma scenario_match_accepted : accepted scenario_match.
Proof. repeat split. Defined.

Lemma missing_match_rejected : ¬ accepted (example_match 1000 false).
Proof. intros (Hexists & _). discriminate Hexists. Defined.

Lemma get_match_records_row_count_witness :
  holds_run "matches.csv" 1 scenario_run.2 ∧ holds_run "matches.csv" 1 scenario_main.2.
Proof.
  split.
  - apply (proj1 (get_match_records_row_count example_service decimal)
             10%nat "matches.csv" 1000 1 0 empty_world);
      [lia | reflexivity | vm_compute; reflexivity].
  - apply (proj2 (get_match_records_row_count example_service decimal)
             10%nat "retrieve_matches.py" "matches.csv" "1000" "1" 1 empty_world);
      [reflexivity | lia | vm_compute; reflexivity].
Defined.

Lemma loop_body_counters_witness :
  (loop_body example_service "matches.csv" 1 0 0 997 empty_world).1 = Ret (1, 996)
  ∧ (loop_body example_service "matches.csv" 1 0 0 1000 empty_world).1 = Ret (0, 999)
  ∧ 996 = 997 - 1 ∧ (1 = 0 ∨ 1 = 0 + 1).
Proof.
  split; [| split].
  - exact (proj1 (loop_body_counters example_service "matches.csv" 1 0 0 997 empty_world)
             scenario_match ltac:(lia) eq_refl).
  - exact (proj1 (loop_body_counters example_service "matches.csv" 1 0 0 1000 empty_world)
             (example_match 1000 false) ltac:(lia) eq_refl).
  - apply (proj2 (loop_body_counters example_service "matches.csv" 1 0 0 997 empty_world)
             1 996 (loop_body example_service "matches.csv" 1 0 0 997 empty_world).2).
    vm_compute. reflexivity.
Defined.

Lemma loop_body_accepts_iff_witness :
  example_service 997 = Ret scenario_match
  ∧ accepted scenario_match
  ∧ files (loop_body example_service "matches.csv" 1 0 0 997 empty_world).2
    ≠ files empty_world
  ∧ files (loop_body example_service "matches.csv" 1 0 0 997 empty_world).2
      !! "matches.csv"
    = Some (header :: match_rows scenario_match)
  ∧ files (loop_body example_service "matches.csv" 1 0 0 1000 empty_world).2
    = files empty_world.
Proof.
  destruct (loop_body_accepts_iff example_service "matches.csv" 1 0 0 997 empty_world
              scenario_match ltac:(lia) eq_refl) as (Hiff & Haccepted & _).
  destruct (loop_body_accepts_iff example_service "matches.csv" 1 0 0 1000 empty_world
              (example_match 1000 false) ltac:(lia) eq_refl) as (_ & _ & Hrejected).
  split; [reflexivity |]. split; [exact scenario_match_accepted |].
  split; [exact (proj2 Hiff scenario_match_accepted) |].
  split.
  - exact (proj2 (proj2 (proj2 (Haccepted scenario_match_accepted)))).
  - exact (proj2 (Hrejected missing_match_rejected)).
Defined.

Lemma loop_body_rejected_untouched_witness :
  files (loop_body example_service "matches.csv" 1 0 0 1000 empty_world).2
  = files empty_world
  ∧ EvOpen "matches.csv"
    ∈ new_events empty_world
        (loop_body example_service "matches.csv" 1 0 0 997 empty_world).2.
Proof.
  split.
  - exact (proj1 (proj1 (loop_body_rejected_untouched example_service "matches.csv"
                          1 0 0 1000 empty_world (example_match 1000 false)
                          ltac:(lia) eq_refl)
                   missing_match_rejected)).
  - exact (proj2 (loop_body_rejected_untouched example_service "matches.csv"
                    1 0 0 997 empty_world scenario_match ltac:(lia) eq_refl)
             scenario_match_accepted).
Defined.

Lemma main_usage_errors_witness :
  main example_service decimal 5 ["retrieve_matches.py"; "matches.csv"] empty_world
  = (Some (Raise error_argument_count), empty_world)
  ∧ main example_service decimal 5
      ["retrieve_matches.py"; "matches.csv"; "newest"; "10"] empty_world
    = (Some (Raise error_invalid_number), empty_world)
  ∧ main example_service decimal 5 example_argv second_run_world
    = (Some (Raise (error_file_exists "matches.csv")), second_run_world).
Proof.
  destruct (main_usage_errors example_service decimal 5 empty_world)
    as (Hcount & Hparse & _).
  destruct (main_usage_errors example_service decimal 5 second_run_world)
    as (_ & _ & Hexists).
  split; [apply Hcount; simpl; lia |].
  split; [apply Hparse; left; reflexivity |].
  apply (Hexists _ _ _ _ 1000 1); [reflexivity | reflexivity |].
  exists [header]. reflexivity.
Defined.

Lemma get_team_stats_empty_ban_and_unknown_selector_witness :
  (∃ r, get_team_stats "blue" scenario_match = Ret r ∧ r !! 4%nat = Some (PyStr ""))
  ∧ get_team_stats "green" scenario_match = Raise error_unknown_team.
Proof.
  destruct (get_team_stats_empty_ban_and_unknown_selector "blue" scenario_match)
    as [Hban _].
  destruct (get_team_stats_empty_ban_and_unknown_selector "green" scenario_match)
    as [_ Hunknown].
  split.
  - apply (Hban (blue_team scenario_match) 0%nat); [right; split |]; reflexivity.
  - apply Hunknown; discriminate.
Defined.

Lemma get_team_stats_row_fields_witness :
  get_team_stats "red" scenario_match = Ret (team_row scenario_match (red_team scenario_match))
  ∧ length (team_row scenario_match (red_team scenario_match)) = 24%nat.
Proof.
  split; [reflexivity |].
  destruct (get_team_stats_row_fields "red" scenario_match _ eq_refl)
    as (t & Hselects & _ & _ & Hfive).
  destruct Hselects as [[_ ->] | [Hblue _]]; [| discriminate Hblue].
  apply Hfive; reflexivity.
Defined.

Lemma header_written_on_first_accept_witness :
  files (loop_body example_service "matches.csv" 1 0 0 997 second_run_world).2
    !! "matches.csv"
  = Some ([header] ++ [header] ++ match_rows scenario_match).
Proof.
  exact (proj2 (header_written_on_first_accept example_service "matches.csv" 1000 0)
           1 0 997 second_run_world scenario_match ltac:(lia) eq_refl
           scenario_match_accepted).
Defined.

Lemma blue_row_before_red_row_witness :
  ∃ before after,
    file_rows (files scenario_run.2) "matches.csv"
    = before ++ team_row scenario_match (blue_team scenario_match)
             :: team_row scenario_match (red_team scenario_match) :: after.
Proof.
  destruct (blue_row_before_red_row example_service "matches.csv" 1000 0 10 1 empty_world)
    as (n & Hfetch & _ & Hpairs).
  assert (Hn : n = 4%nat).
  { apply (f_equal length) in Hfetch. rewrite length_app, probed_length in Hfetch.
    vm_compute in Hfetch. congruence. }
  subst n.
  destruct (Hpairs scenario_match) as (b & r & before & after & Hb & Hr & Hfile).
  { vm_compute. apply list_elem_of_here. }
  injection Hb as <-. injection Hr as <-.
  exists before, after. exact Hfile.
Defined.

(** C9 as stated fails: the row of a team with three ban slots has 22
    fields. *)
Lemma three_ban_row_has_22_fields :
  ∃ r, get_team_stats "blue" three_ban_match = Ret r ∧ length r = 22%nat.
Proof. eexists. split; reflexivity. Qed.

(** C3 as stated fails: after a completed run with [max_records = 0] the
    output file does not exist. *)
Lemma zero_records_creates_no_file :
  zero_run.1 = Some (Ret tt)
  ∧ files zero_run.2 !! "matches.csv" = None
  ∧ os_path_exists "matches.csv" zero_run.2 = false.
Proof. vm_compute. repeat split. Qed.

(** The same through [main]: it announces the file and reports success, and
    the file is not there. *)
Example zero_records_main :
  let res := main example_service decimal 10
               ["retrieve_matches.py"; "matches.csv"; "1000"; "0"] empty_world in
  res.1 = Some (Ret tt)
  ∧ trace res.2 = [EvPrint (MsgCreating "matches.csv")] ++ startup_events
                  ++ [EvPrint (MsgSuccess 0 "matches.csv")]
  ∧ os_path_exists "matches.csv" res.2 = false.
Proof. vm_compute. repeat split. Qed.

(** C5 as stated fails: a completed run with [max_records = 0] has not
    written the header at all. *)
Lemma zero_records_writes_no_header :
  zero_run.1 = Some (Ret tt)
  ∧ header_writes (trace zero_run.2) = 0%nat
  ∧ header ∉ file_rows (files zero_run.2) "matches.csv".
Proof.
  split; [reflexivity |]. split; [reflexivity |].
  vm_compute. apply not_elem_of_nil.
Qed.

(** * Further properties of the loop and of the program *)

(** ** The trace of an iteration *)

Lemma while_loop_done (service : Z -> outcome Match) (fuel : nat) (filename : string)
    (max_records sleep_time read_records current_id : Z) (w : World) :
  max_records ≤ read_records →
  while_loop service fuel filename max_records sleep_time read_records current_id w
  = (Some (Ret (read_records, current_id)), w).
Proof.
  intros Hdone. destruct fuel; simpl;
    destruct (Z.ltb_spec read_records max_records); (lia || reflexivity).
Qed.

Lemma next_read_records_length (service : Z -> outcome Match) (read_records i : Z) :
  next_read_records service read_records i
  = read_records + Z.of_nat (length (accepted_of service [i])).
Proof.
  unfold accepted_of, next_read_records. simpl.
  destruct (service i) as [m | e]; [| simpl; lia].
  destruct (decide (accepted m)); simpl; lia.
Qed.

Section IterationTrace.

Variable service : Z -> outcome Match.
Variables (filename : string) (max_records sleep_time : Z).

Local Abbreviation body := (loop_body service filename max_records sleep_time).
Local Abbreviation events := (iteration_events service filename max_records sleep_time).

(** An iteration, whatever the answer of the service: its events, its
    files, and the counters it returns. *)
Lemma loop_body_run (read_records current_id : Z) (w : World) :
  0 ≤ sleep_time →
  let res := body read_records current_id w in
  trace res.2 = trace w ++ events read_records current_id
  ∧ files res.2
    = appended filename read_records (accepted_of service [current_id]) (files w)
  ∧ res.1 = match service current_id with
            | Ret _ => Ret (next_read_records service read_records current_id,
                            current_id - 1)
            | Raise e => Raise e
            end.
Proof.
  intros Hsleep res. subst res.
  unfold iteration_events, next_read_records, accepted_of. simpl.
  destruct (service current_id) as [m | e] eqn:Hsvc.
  - destruct (decide (accepted m)) as [Hacc | Hrej].
    + rewrite (loop_body_accepted _ _ _ _ _ _ _ m) by done. simpl.
      repeat split.
    + by rewrite (loop_body_rejected _ _ _ _ _ _ _ m).
  - by rewrite (loop_body_raise _ _ _ _ _ _ _ e).
Qed.

End IterationTrace.

(** ** The loop, unrolled *)

Lemma appended_one (service : Z -> outcome Match) (path : string) (read_records i : Z)
    (ids : list Z) (fs : gmap string (list row)) :
  0 ≤ read_records →
  appended path (next_read_records service read_records i) (accepted_of service ids)
    (appended path read_records (accepted_of service [i]) fs)
  = appended path read_records (accepted_of service (i :: ids)) fs.
Proof.
  intros Hrr. rewrite accepted_of_cons.
  unfold next_read_records, accepted_of at 2 3. simpl.
  destruct (service i) as [m | e]; [| done].
  destruct (decide (accepted m)); [| done].
  by apply appended_step.
Qed.

Lemma next_read_records_nonneg (service : Z -> outcome Match) (read_records i : Z) :
  0 ≤ read_records → 0 ≤ next_read_records service read_records i.
Proof. rewrite next_read_records_length. lia. Qed.

Lemma fetches_iteration_events (service : Z -> outcome Match) (filename : string)
    (max_records sleep_time read_records i : Z) :
  fetches (iteration_events service filename max_records sleep_time read_records i) = [i].
Proof.
  unfold iteration_events, file_session. rewrite fetches_app.
  destruct (service i) as [m | e]; [| done].
  destruct (decide (accepted m)); [| done].
  simpl. by rewrite fetches_app, fetches_writerow.
Qed.

Lemma fetches_run_events (service : Z -> outcome Match) (filename : string)
    (max_records sleep_time read_records : Z) (ids : list Z) :
  fetches (run_events service filename max_records sleep_time read_records ids) = ids.
Proof.
  revert read_records. induction ids as [| i ids IH]; intros read_records; [done |].
  cbn [run_events]. by rewrite fetches_app, fetches_iteration_events, IH.
Qed.

Section Unroll.

Variable service : Z -> outcome Match.
Variables (filename : string) (max_records sleep_time : Z).

Local Abbreviation loop := (while_loop service).
Local Abbreviation events := (run_events service filename max_records sleep_time).

(** While the service answers and fewer than [max_records] records are
    read, the loop goes on: [n] iterations lead to the state after the
    identifiers [current_id, ..., current_id - n + 1]. *)
Lemma while_loop_unroll (n : nat) :
  ∀ (fuel : nat) (read_records current_id : Z) (w : World),
    0 ≤ read_records → 0 ≤ sleep_time →
    (∀ k, (k < n)%nat → ∃ m, service (current_id - Z.of_nat k) = Ret m) →
    (∀ k, (k < n)%nat →
       read_records
       + Z.of_nat (length (accepted_of service (probed k current_id))) < max_records) →
    ∃ w',
      loop (n + fuel) filename max_records sleep_time read_records current_id w
      = loop fuel filename max_records sleep_time
          (read_records
           + Z.of_nat (length (accepted_of service (probed n current_id))))
          (current_id - Z.of_nat n) w'
      ∧ trace w' = trace w ++ events read_records (probed n current_id)
      ∧ files w'
        = appended filename read_records (accepted_of service (probed n current_id))
            (files w).
Proof.
  induction n as [| n IH]; intros fuel read_records current_id w Hrr Hsleep Hanswers Hbelow.
  - exists w. simpl. rewrite app_nil_r.
    replace (read_records + Z.of_nat 0) with read_records by lia.
    replace (current_id - Z.of_nat 0) with current_id by lia. done.
  - destruct (Hanswers 0%nat ltac:(lia)) as [m Hsvc].
    replace (current_id - Z.of_nat 0) with current_id in Hsvc by lia.
    pose proof (Hbelow 0%nat ltac:(lia)) as Hlt. simpl in Hlt.
    change (S n + fuel)%nat with (S (n + fuel)). cbn [while_loop].
    destruct (Z.ltb_spec read_records max_records); [| lia].
    destruct (loop_body_run service filename max_records sleep_time
                read_records current_id w Hsleep) as (Htrace & Hfiles & Hres).
    destruct (loop_body service filename max_records sleep_time
                read_records current_id w) as [r w1].
    cbn [fst snd] in Htrace, Hfiles, Hres. rewrite Hsvc in Hres. subst r.
    destruct (IH fuel (next_read_records service read_records current_id)
                (current_id - 1) w1) as (w' & Hloop & Htrace' & Hfiles').
    + by apply next_read_records_nonneg.
    + done.
    + intros k Hk. destruct (Hanswers (S k) ltac:(lia)) as [m' Hm'].
      exists m'. rewrite <- Hm'. f_equal. lia.
    + intros k Hk. pose proof (Hbelow (S k) ltac:(lia)) as Hk'.
      cbn [probed] in Hk'. rewrite accepted_of_cons, length_app in Hk'.
      rewrite next_read_records_length. lia.
    + exists w'. split; [| split].
      * rewrite Hloop. cbn [probed].
        rewrite (accepted_of_cons service current_id), length_app,
          next_read_records_length.
        f_equal; lia.
      * rewrite Htrace', Htrace. cbn [probed run_events]. by rewrite <- app_assoc.
      * rewrite Hfiles', Hfiles. cbn [probed]. by apply appended_one.
Qed.

(** The loop after any amount of fuel: the events so far are those of the
    iterations on the identifiers probed, at most one per unit of fuel. *)
Lemma while_loop_trace (fuel : nat) :
  ∀ (read_records current_id : Z) (w : World),
    ∃ n, (n ≤ fuel)%nat
      ∧ let res := loop fuel filename max_records sleep_time
                     read_records current_id w in
        trace res.2 = trace w ++ events read_records (probed n current_id)
        ∧ (is_Some res.1 ∨ n = fuel).
Proof.
  induction fuel as [| fuel IH]; intros read_records current_id w.
  - exists 0%nat. split; [done |]. simpl.
    destruct (read_records <? max_records); simpl; rewrite app_nil_r; eauto.
  - cbn [while_loop].
    destruct (read_records <? max_records).
    2:{ exists 0%nat. split; [lia |]. simpl. rewrite app_nil_r. eauto. }
    destruct (Z.ltb_spec sleep_time 0) as [Hneg | Hsleep].
    { rewrite loop_body_negative_sleep by done.
      exists 0%nat. split; [lia |]. simpl. rewrite app_nil_r. eauto. }
    destruct (loop_body_run service filename max_records sleep_time
                read_records current_id w Hsleep) as (Htrace & _ & Hres).
    destruct (loop_body service filename max_records sleep_time
                read_records current_id w) as [r w1].
    cbn [fst snd] in Htrace, Hres. subst r.
    destruct (service current_id) as [m | e].
    + destruct (IH (next_read_records service read_records current_id)
                  (current_id - 1) w1) as (n & Hn & Htrace' & Hend).
      exists (S n). split; [lia |]. cbv zeta. split.
      * rewrite Htrace', Htrace. cbn [probed run_events]. by rewrite <- app_assoc.
      * destruct Hend as [Hsome | ->]; eauto.
    + exists 1%nat. split; [lia |]. simpl. rewrite app_nil_r. eauto.
Qed.

End Unroll.

(** ** Runs of [get_match_records], by the answers of the service *)

Lemma probed_snoc (n : nat) (start_id : Z) :
  probed (S n) start_id = probed n start_id ++ [start_id - Z.of_nat n].
Proof.
  revert start_id. induction n as [| n IH]; intros start_id.
  - simpl. f_equal. lia.
  - change (probed (S (S n)) start_id)
      with (start_id :: probed (S n) (start_id - 1)).
    rewrite IH. simpl. do 3 f_equal. lia.
Qed.

Lemma probed_elem_of (n : nat) (start_id i : Z) :
  i ∈ probed n start_id → start_id - Z.of_nat n < i ≤ start_id.
Proof.
  intros Hin. apply list_elem_of_lookup in Hin as [k Hk].
  assert (Hlt : (k < n)%nat).
  { apply lookup_lt_Some in Hk. by rewrite probed_length in Hk. }
  rewrite probed_lookup in Hk by done. injection Hk as <-. lia.
Qed.

Lemma accepted_of_rejected (service : Z -> outcome Match) (ids : list Z) :
  (∀ i, i ∈ ids → ∃ m, service i = Ret m ∧ ¬ accepted m) →
  accepted_of service ids = [].
Proof.
  induction ids as [| i ids IH]; intros Hrej; [done |].
  rewrite accepted_of_cons, IH by (intros j Hj; apply Hrej; by right).
  destruct (Hrej i ltac:(by left)) as (m & Hsvc & Hm).
  unfold accepted_of. simpl. rewrite Hsvc. by rewrite decide_False.
Qed.

Lemma accepted_of_elem_of (service : Z -> outcome Match) (ids : list Z) (m : Match) :
  m ∈ accepted_of service ids → ∃ i, i ∈ ids ∧ service i = Ret m ∧ accepted m.
Proof.
  intros Hin. apply list_elem_of_bind in Hin as (i & Hin & Hi).
  exists i. split; [done |].
  destruct (service i) as [m' | e]; [| by apply not_elem_of_nil in Hin].
  destruct (decide (accepted m')) as [Hacc | Hrej]; [| by apply not_elem_of_nil in Hin].
  apply list_elem_of_singleton in Hin. by subst.
Qed.

Lemma get_match_records_unfold (service : Z -> outcome Match) (fuel : nat)
    (filename : string) (start_id max_records sleep_time : Z) (w : World) :
  get_match_records service fuel filename start_id max_records sleep_time w
  = let r := while_loop service fuel filename max_records sleep_time 0 start_id
               {| files := files w; trace := trace w ++ startup_events |} in
    (match r.1 with
     | Some (Ret _) => Some (Ret tt)
     | Some (Raise e) => Some (Raise e)
     | None => None
     end, r.2).
Proof.
  unfold get_match_records, emit. cbn [files trace]. rewrite <- app_assoc.
  change ([EvSetRiotApiKey "RGAPI-KEY-GOES-HERE"] ++ [EvSetDefaultRegion "NA"])
    with startup_events.
  by destruct (while_loop _ _ _ _ _ _ _ _) as [[[[] | e] |] w'].
Qed.

Section RunsByAnswers.

Variable service : Z -> outcome Match.
Variables (filename : string) (start_id max_records sleep_time : Z).

Local Abbreviation run fuel :=
  (get_match_records service fuel filename start_id max_records sleep_time).
Local Abbreviation events :=
  (run_events service filename max_records sleep_time 0).

Lemma get_match_records_trace (fuel : nat) (w : World) :
  ∃ n, (n ≤ fuel)%nat
    ∧ trace (run fuel w).2 = trace w ++ startup_events ++ events (probed n start_id)
    ∧ (is_Some (run fuel w).1 ∨ n = fuel).
Proof.
  rewrite get_match_records_unfold. cbv zeta. cbn [fst snd].
  destruct (while_loop_trace service filename max_records sleep_time fuel 0 start_id
              {| files := files w; trace := trace w ++ startup_events |})
    as (n & Hn & Htrace & Hend).
  exists n. split; [done |]. split.
  - rewrite Htrace. cbn [trace]. by rewrite <- app_assoc.
  - destruct Hend as [[r Hr] | ->]; [left | by right].
    rewrite Hr. destruct r; eauto.
Qed.

(** The run over the first [n] identifiers, when each of them is answered
    and the records asked for are not all read before the last. *)
Lemma get_match_records_unroll (n fuel : nat) (w : World) :
  0 ≤ sleep_time →
  (∀ k, (k < n)%nat → ∃ m, service (start_id - Z.of_nat k) = Ret m) →
  (∀ k, (k < n)%nat →
     Z.of_nat (length (accepted_of service (probed k start_id))) < max_records) →
  ∃ w',
    while_loop service (n + fuel) filename max_records sleep_time 0 start_id
      {| files := files w; trace := trace w ++ startup_events |}
    = while_loop service fuel filename max_records sleep_time
        (Z.of_nat (length (accepted_of service (probed n start_id))))
        (start_id - Z.of_nat n) w'
    ∧ fetches (trace w') = fetches (trace w) ++ probed n start_id
    ∧ file_rows (files w') filename
      = file_rows (files w) filename
        ++ run_rows 0 (accepted_of service (probed n start_id)).
Proof.
  intros Hsleep Hanswers Hbelow.
  destruct (while_loop_unroll service filename max_records sleep_time n fuel 0 start_id
              {| files := files w; trace := trace w ++ startup_events |})
    as (w' & Hloop & Htrace & Hfiles); [done | done | done | |].
  { intros k Hk. specialize (Hbelow k Hk). lia. }
  exists w'. split; [| split].
  - rewrite Hloop. f_equal.
  - rewrite Htrace. cbn [trace].
    rewrite !fetches_app, fetches_run_events. simpl. by rewrite app_nil_r.
  - rewrite Hfiles. cbn [files]. apply file_rows_appended.
Qed.

(** X1: when the service answers the [n] identifiers from [start_id]
    downwards and the [max_records]-th accepted match among them is the last
    of them, a run with at least [n] units of fuel completes: it has made
    these [n] remote calls and no other, and has appended the header and
    the rows of these matches. *)
Theorem get_match_records_completes (n fuel : nat) (w : World) :
  0 ≤ sleep_time →
  (∀ k, (k < n)%nat → ∃ m, service (start_id - Z.of_nat k) = Ret m) →
  (∀ k, (k < n)%nat →
     Z.of_nat (length (accepted_of service (probed k start_id))) < max_records) →
  Z.of_nat (length (accepted_of service (probed n start_id))) = max_records →
  (n ≤ fuel)%nat →
  (run fuel w).1 = Some (Ret tt)
  ∧ fetches (trace (run fuel w).2) = fetches (trace w) ++ probed n start_id
  ∧ file_rows (files (run fuel w).2) filename
    = file_rows (files w) filename
      ++ run_rows 0 (accepted_of service (probed n start_id)).
Proof.
  intros Hsleep Hanswers Hbelow Hlast Hfuel.
  replace fuel with (n + (fuel - n))%nat by lia.
  destruct (get_match_records_unroll n (fuel - n) w Hsleep Hanswers Hbelow)
    as (w' & Hloop & Hfetch & Hrows).
  rewrite get_match_records_unfold. cbv zeta. rewrite Hloop.
  rewrite while_loop_done by lia. done.
Qed.

(** X2: when no identifier from [start_id] downwards is an accepted match,
    a run that is asked for at least one record never completes: after any
    number of iterations it is still searching, has made one remote call
    per iteration and has written nothing. *)
Theorem get_match_records_never_completes (fuel : nat) (w : World) :
  0 ≤ sleep_time →
  1 ≤ max_records →
  (∀ i, i ≤ start_id → ∃ m, service i = Ret m ∧ ¬ accepted m) →
  (run fuel w).1 = None
  ∧ files (run fuel w).2 = files w
  ∧ fetches (trace (run fuel w).2) = fetches (trace w) ++ probed fuel start_id.
Proof.
  intros Hsleep Hmax Hnone.
  assert (Hrejected : ∀ k, accepted_of service (probed k start_id) = []).
  { intros k. apply accepted_of_rejected. intros i Hi.
    apply Hnone. apply probed_elem_of in Hi. lia. }
  destruct (while_loop_unroll service filename max_records sleep_time fuel 0 0 start_id
              {| files := files w; trace := trace w ++ startup_events |})
    as (w' & Hloop & Htrace & Hfiles); [done | done | | |].
  { intros k Hk. destruct (Hnone (start_id - Z.of_nat k) ltac:(lia)) as (m & Hm & _).
    eauto. }
  { intros k Hk. rewrite Hrejected. simpl. lia. }
  rewrite Nat.add_0_r in Hloop. rewrite Hrejected in Hloop, Hfiles.
  rewrite get_match_records_unfold. cbv zeta. rewrite Hloop. simpl.
  change (0 + Z.of_nat 0) with 0.
  destruct (Z.ltb_spec 0 max_records); [| lia]. simpl.
  split; [done |]. split; [done |].
  rewrite Htrace. cbn [trace].
  rewrite !fetches_app, fetches_run_events. simpl. by rewrite app_nil_r.
Qed.

(** X3: when the service fails on the identifier [start_id - k], after
    answering the [k] identifiers before it without the records asked for
    being all read, the run raises the exception of the service; it has
    made [k + 1] remote calls and the file keeps the complete rows of the
    matches accepted before. *)
Theorem get_match_records_service_error (k fuel : nat) (e : exn) (w : World) :
  0 ≤ sleep_time →
  (∀ j, (j < k)%nat → ∃ m, service (start_id - Z.of_nat j) = Ret m) →
  (∀ j, (j ≤ k)%nat →
     Z.of_nat (length (accepted_of service (probed j start_id))) < max_records) →
  service (start_id - Z.of_nat k) = Raise e →
  (k < fuel)%nat →
  (run fuel w).1 = Some (Raise e)
  ∧ fetches (trace (run fuel w).2) = fetches (trace w) ++ probed (S k) start_id
  ∧ file_rows (files (run fuel w).2) filename
    = file_rows (files w) filename
      ++ run_rows 0 (accepted_of service (probed k start_id)).
Proof.
  intros Hsleep Hanswers Hbelow Hfails Hfuel.
  replace fuel with (k + S (fuel - S k))%nat by lia.
  destruct (get_match_records_unroll k (S (fuel - S k)) w Hsleep Hanswers)
    as (w' & Hloop & Hfetch & Hrows).
  { intros j Hj. apply Hbelow. lia. }
  rewrite get_match_records_unfold. cbv zeta. rewrite Hloop.
  cbn [while_loop]. pose proof (Hbelow k ltac:(lia)) as Hlt.
  destruct (Z.ltb_spec (Z.of_nat (length (accepted_of service (probed k start_id))))
              max_records); [| lia].
  rewrite (loop_body_raise _ _ _ _ _ _ _ e) by done. cbn [fst snd files trace].
  split; [done |]. split; [| done].
  rewrite fetches_app, Hfetch, probed_snoc. by rewrite <- app_assoc.
Qed.

End RunsByAnswers.

(** ** What every run does, whatever its outcome *)

Lemma filter_pace_writerow (path : string) (rows : list row) :
  List.filter is_pace_event (EvWriteRow path <$> rows) = [].
Proof. induction rows as [| r rows IH]; [done | exact IH]. Qed.

Lemma filter_file_writerow (path : string) (rows : list row) :
  List.filter is_file_event (EvWriteRow path <$> rows) = EvWriteRow path <$> rows.
Proof. induction rows as [| r rows IH]; [done |]. simpl. f_equal. exact IH. Qed.

Lemma filter_file_session (path : string) (rows : list row) :
  List.filter is_file_event (file_session path rows) = file_session path rows.
Proof.
  unfold file_session. rewrite !List.filter_app, filter_file_writerow. reflexivity.
Qed.

Lemma filter_pace_session (path : string) (rows : list row) :
  List.filter is_pace_event (file_session path rows) = [].
Proof.
  unfold file_session. rewrite !List.filter_app, filter_pace_writerow. reflexivity.
Qed.

Lemma accepted_of_single (service : Z -> outcome Match) (i : Z) :
  accepted_of service [i]
  = match service i with
    | Ret m => if decide (accepted m) then [m] else []
    | Raise _ => []
    end.
Proof. unfold accepted_of. simpl. by rewrite app_nil_r. Qed.

Lemma sessions_of_later (path : string) (read_records : Z) (ms : list Match) :
  0 ≤ read_records →
  sessions_of path (read_records + 1) ms
  = ms ≫= fun m => file_session path (match_rows m).
Proof.
  intros Hrr. destruct ms as [| m ms]; [done |].
  unfold sessions_of. by rewrite header_if_first_succ.
Qed.

Section EveryRun.

Variable service : Z -> outcome Match.
Variables (filename : string) (max_records sleep_time : Z).

Local Abbreviation events := (run_events service filename max_records sleep_time).

Lemma filter_pace_run_events (read_records : Z) (ids : list Z) :
  List.filter is_pace_event (events read_records ids)
  = ids ≫= fun i => [EvSleep sleep_time; EvGetMatch i].
Proof.
  revert read_records. induction ids as [| i ids IH]; intros read_records; [done |].
  cbn [run_events]. rewrite List.filter_app, IH.
  change ((i :: ids) ≫= fun i => [EvSleep sleep_time; EvGetMatch i])
    with ([EvSleep sleep_time; EvGetMatch i]
          ++ (ids ≫= fun i => [EvSleep sleep_time; EvGetMatch i])).
  f_equal. unfold iteration_events. rewrite List.filter_app.
  destruct (service i) as [m | e]; [| done].
  destruct (decide (accepted m)); [| done].
  cbn [List.filter is_pace_event app]. by rewrite filter_pace_session.
Qed.

Lemma filter_file_run_events (read_records : Z) (ids : list Z) :
  0 ≤ read_records →
  List.filter is_file_event (events read_records ids)
  = sessions_of filename read_records (accepted_of service ids).
Proof.
  revert read_records. induction ids as [| i ids IH]; intros read_records Hrr; [done |].
  cbn [run_events]. rewrite List.filter_app, accepted_of_cons.
  rewrite IH by (by apply next_read_records_nonneg).
  rewrite accepted_of_single.
  unfold iteration_events, next_read_records.
  rewrite List.filter_app.
  destruct (service i) as [m | e]; [| done].
  destruct (decide (accepted m)); [| done].
  cbn [List.filter is_file_event app].
  rewrite sessions_of_later, filter_file_session by done.
  reflexivity.
Qed.

Variable start_id : Z.

Local Abbreviation run fuel :=
  (get_match_records service fuel filename start_id max_records sleep_time).

Lemma get_match_records_new_events (fuel : nat) (w : World) :
  ∃ n, (n ≤ fuel)%nat
    ∧ new_events w (run fuel w).2 = startup_events ++ events 0 (probed n start_id)
    ∧ fetches (new_events w (run fuel w).2) = probed n start_id.
Proof.
  destruct (get_match_records_trace service filename start_id max_records sleep_time
              fuel w) as (n & Hn & Htrace & _).
  exists n. split; [done |].
  rewrite (new_events_app _ _ _ Htrace). split; [done |].
  by rewrite fetches_app, fetches_run_events.
Qed.

(** X4: the remote calls of a run, in order, are for [start_id],
    [start_id - 1], [start_id - 2], ...: the [k]-th is for [start_id - k];
    no identifier is fetched twice, and there is at most one call per
    iteration. *)
Theorem fetches_descend (fuel : nat) (w : World) :
  let fetched := fetches (new_events w (run fuel w).2) in
  (length fetched ≤ fuel)%nat
  ∧ (∀ (k : nat) (i : Z), fetched !! k = Some i → i = start_id - Z.of_nat k)
  ∧ NoDup fetched.
Proof.
  destruct (get_match_records_new_events fuel w) as (n & Hn & _ & Hfetched).
  cbv zeta. rewrite Hfetched.
  assert (Hlookup : ∀ (k : nat) (i : Z),
            probed n start_id !! k = Some i → i = start_id - Z.of_nat k).
  { intros k i Hk. apply lookup_lt_Some in Hk as Hlt.
    rewrite probed_length in Hlt. rewrite probed_lookup in Hk by done.
    by injection Hk as <-. }
  split; [by rewrite probed_length |]. split; [done |].
  apply NoDup_alt. intros j k i Hj Hk.
  apply Hlookup in Hj, Hk. lia.
Qed.

(** X5: among the sleeps and remote calls of a run, every remote call comes
    right after one sleep of [sleep_time] seconds, and there is no other
    sleep. *)
Theorem sleep_before_each_fetch (fuel : nat) (w : World) :
  List.filter is_pace_event (new_events w (run fuel w).2)
  = fetches (new_events w (run fuel w).2)
      ≫= fun i => [EvSleep sleep_time; EvGetMatch i].
Proof.
  destruct (get_match_records_new_events fuel w) as (n & _ & Hevents & Hfetched).
  rewrite Hfetched, Hevents, List.filter_app.
  by rewrite filter_pace_run_events.
Qed.

(** X6: the opens, writes and closes of a run are one session per accepted
    match, in the order the matches were fetched: the output file is opened,
    the rows of the match are written (after the header in the first
    session only) and the file is closed; no other file is opened, and no
    session is left open. *)
Theorem one_file_session_per_match (fuel : nat) (w : World) :
  ∃ n, fetches (new_events w (run fuel w).2) = probed n start_id
    ∧ List.filter is_file_event (new_events w (run fuel w).2)
      = match accepted_of service (probed n start_id) with
        | [] => []
        | m :: ms =>
            ([EvOpen filename]
             ++ (EvWriteRow filename
                   <$> [header; team_row m (blue_team m); team_row m (red_team m)])
             ++ [EvClose filename])
            ++ (ms ≫= fun m' =>
                  [EvOpen filename]
                  ++ (EvWriteRow filename
                        <$> [team_row m' (blue_team m'); team_row m' (red_team m')])
                  ++ [EvClose filename])
        end.
Proof.
  destruct (get_match_records_new_events fuel w) as (n & _ & Hevents & Hfetched).
  exists n. split; [done |].
  rewrite Hevents, List.filter_app, filter_file_run_events by done.
  by destruct (accepted_of service (probed n start_id)).
Qed.

(** X8: when every accepted match the service gives has five ban slots and
    five participants in both teams, every row of the output file of a run
    on a file that did not exist, the header included, has 24 fields. *)
Theorem output_rows_have_24_fields (fuel : nat) (w : World) (r : row) :
  (∀ i m, service i = Ret m → accepted m → five_a_side m) →
  files w !! filename = None →
  r ∈ file_rows (files (run fuel w).2) filename →
  length r = 24%nat.
Proof.
  intros Hfive Hnew.
  destruct (get_match_records_spec service filename start_id sleep_time fuel
              max_records w) as (n & _ & Hfiles & _).
  rewrite Hfiles, file_rows_appended. unfold file_rows at 1. rewrite Hnew. simpl.
  set (ms := accepted_of service (probed n start_id)).
  destruct (decide (ms = [])) as [-> | Hne].
  { intros Hin. by apply not_elem_of_nil in Hin. }
  rewrite run_rows_first by done.
  intros [-> | Hin]%elem_of_cons; [reflexivity |].
  apply list_elem_of_bind in Hin as (m & Hin & Hm).
  apply accepted_of_elem_of in Hm as (i & _ & Hsvc & Hacc).
  destruct (Hfive i m Hsvc Hacc) as (Hbb & Hbp & Hrb & Hrp).
  unfold match_rows in Hin.
  apply elem_of_cons in Hin as [-> | Hin].
  { rewrite team_row_length. lia. }
  apply list_elem_of_singleton in Hin as ->.
  rewrite team_row_length. lia.
Qed.

End EveryRun.

(** ** The program, run after run *)

Section ProgramRuns.

Variable service : Z -> outcome Match.
Variable int_of_str : string -> option Z.

Local Abbreviation main' := (main service int_of_str).

(** [main] on a well-formed command line and a path that does not exist. *)
Lemma main_well_formed (fuel : nat) (prog filename arg2 arg3 : string)
    (start_id max_records : Z) (w : World) :
  int_of_str arg2 = Some start_id →
  int_of_str arg3 = Some max_records →
  files w !! filename = None →
  main' fuel [prog; filename; arg2; arg3] w
  = let r := get_match_records service fuel filename start_id max_records 3
               {| files := files w;
                  trace := trace w ++ [EvPrint (MsgCreating filename)] |} in
    match r.1 with
    | Some (Ret _) =>
        (Some (Ret tt),
         {| files := files r.2;
            trace := trace r.2 ++ [EvPrint (MsgSuccess max_records filename)] |})
    | _ => r
    end.
Proof.
  intros Hstart Hmax Hnew. unfold main. simpl. rewrite Hstart, Hmax.
  unfold os_path_exists. rewrite Hnew.
  rewrite bool_decide_eq_false_2 by (by intros [? ?]).
  unfold print, emit.
  by destruct (get_match_records _ _ _ _ _ _ _) as [[[[] | e] |] w'].
Qed.

Lemma get_match_records_other_files (fuel : nat) (filename : string)
    (start_id max_records sleep_time : Z) (w : World) (path : string) :
  path ≠ filename →
  files (get_match_records service fuel filename start_id max_records sleep_time w).2
    !! path
  = files w !! path.
Proof.
  intros Hpath.
  destruct (get_match_records_spec service filename start_id sleep_time fuel
              max_records w) as (n & _ & Hfiles & _).
  rewrite Hfiles. unfold appended.
  destruct (accepted_of service (probed n start_id)); [done |].
  by rewrite lookup_insert_ne.
Qed.

(** X7: a run touches no file but its output file: every other path holds
    after [get_match_records], and after [main], what it held before. *)
Theorem other_files_untouched (fuel : nat) (w : World) (path : string) :
  (∀ filename start_id max_records sleep_time,
     path ≠ filename →
     files (get_match_records service fuel filename start_id max_records
              sleep_time w).2 !! path
     = files w !! path)
  ∧ (∀ argv, argv !! 1%nat ≠ Some path →
       files (main' fuel argv w).2 !! path = files w !! path).
Proof.
  split.
  - intros. by apply get_match_records_other_files.
  - intros argv Hpath.
    destruct argv as [| prog [| filename [| arg2 [| arg3 [| extra argv]]]]]; try done.
    destruct (int_of_str arg2) as [start_id |] eqn:Hstart;
      [| unfold main; simpl; by rewrite Hstart].
    destruct (int_of_str arg3) as [max_records |] eqn:Hmax;
      [| unfold main; simpl; by rewrite Hstart, Hmax].
    destruct (files w !! filename) as [rows |] eqn:Hnew.
    { unfold main. simpl. rewrite Hstart, Hmax. unfold os_path_exists.
      rewrite bool_decide_eq_true_2 by (rewrite Hnew; eauto). done. }
    rewrite (main_well_formed fuel prog filename arg2 arg3 start_id max_records w)
      by done.
    cbv zeta.
    assert (Hne : path ≠ filename) by (intros ->; by apply Hpath).
    pose proof (get_match_records_other_files fuel filename start_id max_records 3
                  {| files := files w;
                     trace := trace w ++ [EvPrint (MsgCreating filename)] |}
                  path Hne) as Hrun.
    by destruct (get_match_records _ _ _ _ _ _ _) as [[[[] | e] |] w'].
Qed.

Lemma main_completed_rows (fuel : nat) (prog filename arg2 arg3 : string)
    (max_records : Z) (w w' : World) :
  int_of_str arg3 = Some max_records →
  1 ≤ max_records →
  main' fuel [prog; filename; arg2; arg3] w = (Some (Ret tt), w') →
  holds_run filename max_records w'.
Proof.
  intros Hmax Hone.
  destruct (int_of_str arg2) as [start_id |] eqn:Hstart;
    [| unfold main; simpl; by rewrite Hstart].
  destruct (files w !! filename) as [rows |] eqn:Hnew.
  { unfold main. simpl. rewrite Hstart, Hmax. unfold os_path_exists.
    rewrite bool_decide_eq_true_2 by (rewrite Hnew; eauto). done. }
  rewrite (main_well_formed fuel prog filename arg2 arg3 start_id max_records w)
    by done.
  cbv zeta.
  destruct (get_match_records _ _ _ _ _ _ _) as [[[[] | e] |] w1] eqn:Hrun;
    cbn [fst snd]; intros [= <-].
  apply completed_run_rows in Hrun; [| done | done].
  exact Hrun.
Qed.

(** X9: after a successful run of the program for [max_records >= 1], a
    second run with the same output path, whatever its other arguments, is
    refused with the file-exists error and changes nothing. *)
Theorem second_run_refused (fuel fuel' : nat) (prog filename arg2 arg3 : string)
    (prog' arg2' arg3' : string) (max_records start_id' max_records' : Z)
    (w w' : World) :
  int_of_str arg3 = Some max_records →
  1 ≤ max_records →
  main' fuel [prog; filename; arg2; arg3] w = (Some (Ret tt), w') →
  int_of_str arg2' = Some start_id' →
  int_of_str arg3' = Some max_records' →
  main' fuel' [prog'; filename; arg2'; arg3'] w'
  = (Some (Raise (error_file_exists filename)), w').
Proof.
  intros Hmax Hone Hfirst Hstart' Hmax'.
  destruct (main_completed_rows _ _ _ _ _ _ _ _ Hmax Hone Hfirst)
    as (ms & _ & _ & Hfile & _).
  unfold main. simpl. rewrite Hstart', Hmax'. unfold os_path_exists.
  rewrite bool_decide_eq_true_2 by (rewrite Hfile; eauto). done.
Qed.

(** X10: the program on a well-formed command line and a fresh path prints
    the creation notice first, sets the key and the region, then runs the
    iterations with a sleep of 3 seconds; its outcome is the outcome of
    [get_match_records], and it prints the success message, last, exactly
    when the run completed. *)
Theorem main_trace (fuel : nat) (prog filename arg2 arg3 : string)
    (start_id max_records : Z) (w : World) :
  int_of_str arg2 = Some start_id →
  int_of_str arg3 = Some max_records →
  files w !! filename = None →
  let res := main' fuel [prog; filename; arg2; arg3] w in
  ∃ n, (n ≤ fuel)%nat
    ∧ trace res.2
      = trace w ++ [EvPrint (MsgCreating filename)] ++ startup_events
        ++ run_events service filename max_records 3 0 (probed n start_id)
        ++ match res.1 with
           | Some (Ret _) => [EvPrint (MsgSuccess max_records filename)]
           | _ => []
           end.
Proof.
  intros Hstart Hmax Hnew res. subst res.
  rewrite (main_well_formed fuel prog filename arg2 arg3 start_id max_records w)
    by done.
  cbv zeta.
  destruct (get_match_records_trace service filename start_id max_records 3 fuel
              {| files := files w;
                 trace := trace w ++ [EvPrint (MsgCreating filename)] |})
    as (n & Hn & Htrace & _).
  exists n. split; [done |].
  destruct (get_match_records _ _ _ _ _ _ _) as [[[[] | e] |] w'];
    cbn [fst snd trace] in *; rewrite Htrace, <- ?app_assoc.
  - reflexivity.
  - by rewrite !app_nil_r.
  - by rewrite !app_nil_r.
Qed.

(** X11: with [max_records <= 0], negative numbers included, the loop is not
    entered: [get_match_records] completes at once, and the program reports
    success although it has made no remote call and has not created the
    output file. *)
Theorem non_positive_max_records (fuel : nat) (max_records : Z) (w : World) :
  max_records ≤ 0 →
  (∀ filename start_id sleep_time,
     get_match_records service fuel filename start_id max_records sleep_time w
     = (Some (Ret tt), {| files := files w; trace := trace w ++ startup_events |}))
  ∧ (∀ prog filename arg2 arg3 start_id,
       int_of_str arg2 = Some start_id →
       int_of_str arg3 = Some max_records →
       files w !! filename = None →
       main' fuel [prog; filename; arg2; arg3] w
       = (Some (Ret tt),
          {| files := files w;
             trace := trace w ++ [EvPrint (MsgCreating filename)] ++ startup_events
                      ++ [EvPrint (MsgSuccess max_records filename)] |})).
Proof.
  intros Hmax.
  assert (Hrun : ∀ filename start_id sleep_time w0,
    get_match_records service fuel filename start_id max_records sleep_time w0
    = (Some (Ret tt), {| files := files w0; trace := trace w0 ++ startup_events |})).
  { intros. rewrite get_match_records_unfold. cbv zeta.
    by rewrite while_loop_done by lia. }
  split; [intros; apply Hrun |].
  intros prog filename arg2 arg3 start_id Hstart Hparse Hnew.
  rewrite (main_well_formed fuel prog filename arg2 arg3 start_id max_records w)
    by done.
  cbv zeta. rewrite Hrun. cbn [fst snd files trace].
  by rewrite <- !app_assoc.
Qed.

End ProgramRuns.

(** ** The further properties at the scenario *)

Lemma example_service_answers (k : nat) :
  ∃ m, example_service (1000 - Z.of_nat k) = Ret m.
Proof.
  unfold example_service. destruct (1000 - Z.of_nat k =? 997); eauto.
Defined.

Lemma failing_service_answers (j : nat) :
  (j < 2)%nat → ∃ m, failing_service (1000 - Z.of_nat j) = Ret m.
Proof.
  intros Hj. destruct j as [| [| j]]; [eexists; reflexivity .. | lia].
Defined.

Lemma barren_service_rejects (i : Z) :
  ∃ m, barren_service i = Ret m ∧ ¬ accepted m.
Proof.
  eexists. split; [reflexivity |]. intros (Hexists & _). discriminate Hexists.
Defined.

Lemma example_service_five_a_side (i : Z) (m : Match) :
  example_service i = Ret m → accepted m → five_a_side m.
Proof.
  unfold example_service. destruct (i =? 997); intros [= <-] _; by repeat split.
Defined.

Lemma get_match_records_completes_witness :
  scenario_run.1 = Some (Ret tt)
  ∧ fetches (trace scenario_run.2) = [1000; 999; 998; 997]
  ∧ file_rows (files scenario_run.2) "matches.csv"
    = header :: match_rows scenario_match.
Proof.
  apply (get_match_records_completes example_service "matches.csv" 1000 1 0
           4 10 empty_world).
  - lia.
  - intros k _. apply example_service_answers.
  - intros k Hk. destruct k as [| [| [| [| k]]]]; [vm_compute; reflexivity .. | lia].
  - reflexivity.
  - lia.
Defined.

Lemma get_match_records_never_completes_witness :
  (get_match_records barren_service 5 "matches.csv" 1000 1 0 empty_world).1 = None
  ∧ files (get_match_records barren_service 5 "matches.csv" 1000 1 0 empty_world).2
    = ∅
  ∧ fetches
      (trace (get_match_records barren_service 5 "matches.csv" 1000 1 0 empty_world).2)
    = [1000; 999; 998; 997; 996].
Proof.
  apply (get_match_records_never_completes barren_service "matches.csv" 1000 1 0
           5 empty_world); [lia | lia |].
  intros i _. apply barren_service_rejects.
Defined.

Lemma get_match_records_service_error_witness :
  (get_match_records failing_service 10 "matches.csv" 1000 1 0 empty_world).1
  = Some (Raise (ServiceError "503"))
  ∧ fetches
      (trace (get_match_records failing_service 10 "matches.csv" 1000 1 0
                empty_world).2)
    = [1000; 999; 998]
  ∧ file_rows
      (files (get_match_records failing_service 10 "matches.csv" 1000 1 0
                empty_world).2) "matches.csv"
    = [].
Proof.
  apply (get_match_records_service_error failing_service "matches.csv" 1000 1 0
           2 10 (ServiceError "503") empty_world).
  - lia.
  - apply failing_service_answers.
  - intros j Hj. destruct j as [| [| [| j]]]; [vm_compute; reflexivity .. | lia].
  - reflexivity.
  - lia.
Defined.

Lemma output_rows_have_24_fields_witness :
  length (team_row scenario_match (red_team scenario_match)) = 24%nat.
Proof.
  apply (output_rows_have_24_fields example_service "matches.csv" 1 0 1000
           10 empty_world).
  - apply example_service_five_a_side.
  - reflexivity.
  - vm_compute. apply list_elem_of_further, list_elem_of_further, list_elem_of_here.
Defined.

Lemma other_files_untouched_witness :
  files (get_match_records example_service 10 "matches.csv" 1000 1 0
           second_run_world).2 !! "other.csv"
  = files second_run_world !! "other.csv"
  ∧ files (main example_service decimal 10 ["retrieve_matches.py"; "new.csv"; "1000"; "1"]
             second_run_world).2 !! "matches.csv"
    = files second_run_world !! "matches.csv".
Proof.
  destruct (other_files_untouched example_service decimal 10 second_run_world "other.csv")
    as [Hrun _].
  destruct (other_files_untouched example_service decimal 10 second_run_world
              "matches.csv") as [_ Hmain].
  split.
  - apply Hrun. discriminate.
  - apply Hmain. discriminate.
Defined.

Lemma second_run_refused_witness :
  main example_service decimal 3 ["retrieve_matches.py"; "matches.csv"; "500"; "20"]
    scenario_main.2
  = (Some (Raise (error_file_exists "matches.csv")), scenario_main.2).
Proof.
  apply (second_run_refused example_service decimal 10 3
           "retrieve_matches.py" "matches.csv" "1000" "1"
           "retrieve_matches.py" "500" "20" 1 500 20 empty_world);
    [reflexivity | lia | vm_compute; reflexivity | reflexivity | reflexivity].
Defined.

Lemma main_trace_witness :
  ∃ n, (n ≤ 10)%nat
    ∧ trace scenario_main.2
      = trace empty_world ++ [EvPrint (MsgCreating "matches.csv")] ++ startup_events
        ++ run_events example_service "matches.csv" 1 3 0 (probed n 1000)
        ++ match scenario_main.1 with
           | Some (Ret _) => [EvPrint (MsgSuccess 1 "matches.csv")]
           | _ => []
           end.
Proof.
  apply (main_trace example_service decimal 10
           "retrieve_matches.py" "matches.csv" "1000" "1" 1000 1 empty_world);
    reflexivity.
Defined.

Lemma non_positive_max_records_witness :
  get_match_records example_service 10 "matches.csv" 1000 (-5) 3 empty_world
  = (Some (Ret tt), {| files := ∅; trace := startup_events |})
  ∧ main example_service decimal 10 ["retrieve_matches.py"; "matches.csv"; "1000"; "-5"]
      empty_world
    = (Some (Ret tt),
       {| files := ∅;
          trace := [EvPrint (MsgCreating "matches.csv")] ++ startup_events
                   ++ [EvPrint (MsgSuccess (-5) "matches.csv")] |}).
Proof.
  destruct (non_positive_max_records example_service decimal 10 (-5) empty_world
              ltac:(lia)) as [Hrun Hmain].
  split.
  - apply Hrun.
  - apply (Hmain _ _ _ _ 1000); reflexivity.
Defined.

(** The remote calls, the pace and the file sessions of the scenario. *)
Example scenario_effects :
  List.filter is_pace_event (new_events empty_world scenario_run.2)
  = [EvSleep 0; EvGetMatch 1000; EvSleep 0; EvGetMatch 999;
     EvSleep 0; EvGetMatch 998; EvSleep 0; EvGetMatch 997]
  ∧ List.filter is_file_event (new_events empty_world scenario_run.2)
    = file_session "matches.csv" (header :: match_rows scenario_match).
Proof. vm_compute. split; reflexivity. Qed.
